(** * json_list_of_objects_key_extractor: a shallow embedding and its properties

    The program reads a JSON file holding a list of objects, keeps a
    caller-chosen subset of keys of every object and writes the result as
    JSON or CSV.  This file embeds [json_list_of_objects_key_extractor.py]
    function by function and proves the properties of the written
    specification against the embedding.

    Conventions of the embedding:
    - a Python [str] is a [string]; one [ascii] stands for one code point
      below 256;
    - a Python [int] is a [Z];
    - a Python [dict] is an insertion-ordered association list without
      repeated keys ([PyDict]);
    - [print], [sys.exit] and the file system calls are threaded through a
      small state-and-exit monad ([Py]); the file system itself is an
      oracle ([env]) answering the calls the program makes. *)

From Stdlib Require Import String Ascii List ZArith Lia Bool Arith.
Import ListNotations.

Local Open Scope string_scope.
Local Open Scope list_scope.

(** ** Python strings: the methods the program calls *)

Module PyStr.

(** [str.isspace] on one character, for code points below 256:
    TAB..CR, FS..US, SPACE, NEL (0x85) and NBSP (0xA0). *)
Definition isspace (c : ascii) : bool :=
  let n := nat_of_ascii c in
  (((9 <=? n) && (n <=? 13)) || ((28 <=? n) && (n <=? 32))
   || (n =? 133) || (n =? 160))%nat.

(** Truth value of a [str]: non-empty. *)
Definition truthy (s : string) : bool :=
  match s with
  | EmptyString => false
  | String _ _ => true
  end.

Fixpoint lstrip (s : string) : string :=
  match s with
  | EmptyString => EmptyString
  | String c s' => if isspace c then lstrip s' else s
  end.

Fixpoint rstrip (s : string) : string :=
  match s with
  | EmptyString => EmptyString
  | String c s' =>
      let r := rstrip s' in
      if isspace c && negb (truthy r) then EmptyString else String c r
  end.

(** [s.strip()] with no argument. *)
Definition strip (s : string) : string := rstrip (lstrip s).

(** [s.split(sep)] for a one-character separator: every occurrence
    splits, and the result is never empty ([''.split(',') == ['']]). *)
Fixpoint split (sep : ascii) (s : string) : list string :=
  match s with
  | EmptyString => [EmptyString]
  | String c s' =>
      if Ascii.eqb c sep then EmptyString :: split sep s'
      else match split sep s' with
           | [] => [String c EmptyString]
           | t :: ts => String c t :: ts
           end
  end.

(** [s.startswith(p)] and [s.endswith(p)] for a one-character [p]. *)
Definition startswith (s : string) (p : ascii) : bool :=
  match s with
  | EmptyString => false
  | String c _ => Ascii.eqb c p
  end.

Fixpoint endswith (s : string) (p : ascii) : bool :=
  match s with
  | EmptyString => false
  | String c EmptyString => Ascii.eqb c p
  | String _ s' => endswith s' p
  end.

End PyStr.

(** ** Python dictionaries with string keys *)

Module PyDict.
Section Dict.
Context {V : Type}.

(** Entries in insertion order. *)
Definition dict := list (string * V).

Definition keys (d : dict) : list string := map fst d.

(** [len(d)] *)
Definition len (d : dict) : nat := length d.

(** [k in d] *)
Fixpoint contains (k : string) (d : dict) : bool :=
  match d with
  | [] => false
  | (k', _) :: d' => if String.eqb k' k then true else contains k d'
  end.

(** [d[k]]; [None] stands for the [KeyError] Python raises. *)
Fixpoint getitem (k : string) (d : dict) : option V :=
  match d with
  | [] => None
  | (k', v) :: d' => if String.eqb k' k then Some v else getitem k d'
  end.

(** [d[k] = v]: an existing key keeps its position and takes the new
    value, a new key goes last. *)
Fixpoint setitem (k : string) (v : V) (d : dict) : dict :=
  match d with
  | [] => [(k, v)]
  | (k', v') :: d' =>
      if String.eqb k' k then (k', v) :: d'
      else (k', v') :: setitem k v d'
  end.

(** The invariant of every Python dictionary: no key twice. *)
Definition wf (d : dict) : Prop := NoDup (keys d).

(** [d1 == d2] for dictionaries: as many entries, and the same value
    under every key (the order of insertion does not count). *)
Definition equiv (d1 d2 : dict) : Prop :=
  len d1 = len d2 /\ forall k, getitem k d1 = getitem k d2.

End Dict.
Arguments dict V : clear implicits.
End PyDict.

(** ** JSON values as [json.load] returns them *)

#[warnings="-register-all"]
Inductive json : Type :=
| JNull
| JBool (b : bool)
| JInt (z : Z)
| JFloat (repr : string)
| JStr (s : string)
| JArr (items : list json)
| JObj (d : list (string * json)).

(** [isinstance(v, dict)] and [isinstance(v, list)] *)
Definition is_dict (v : json) : bool :=
  match v with JObj _ => true | _ => false end.

Definition is_list (v : json) : bool :=
  match v with JArr _ => true | _ => false end.

(** ** Effects: standard output, process exit and file system calls *)

(** The file system calls of one run, in the order they are made. *)
Inductive event : Type :=
| EvIsFile (path : string)
| EvOpenRead (path : string)
| EvOpenWrite (path : string)
| EvJsonDump (path : string) (data : list json) (indent : nat)
| EvCsvWrite (path : string) (fieldnames : list string) (rows : list json).

(** What the file system answers.  [json_load p] is the value of
    [open(p, 'r', encoding='utf-8')] followed by [json.load], [None] when
    either raises; [write_exn p] is [Some e] when writing [p] raises an
    exception whose text is [e]. *)
Record env : Type := mkEnv {
  script_dir : string;
  os_path_isfile : string -> bool;
  json_load : string -> option json;
  write_exn : string -> option string
}.

Record state : Type := mkState {
  stdout : list string;
  io : list event
}.

Definition init : state := mkState [] [].

Module Py.

Inductive outcome (A : Type) : Type :=
| Ret (a : A)
| Exit (code : Z)
| Uncaught (exn : string).
Arguments Ret {A} a.
Arguments Exit {A} code.
Arguments Uncaught {A} exn.

Definition M (A : Type) : Type := state -> outcome A * state.

Definition ret {A} (a : A) : M A := fun s => (Ret a, s).

Definition bind {A B} (m : M A) (f : A -> M B) : M B :=
  fun s =>
    match m s with
    | (Ret a, s') => f a s'
    | (Exit c, s') => (Exit c, s')
    | (Uncaught e, s') => (Uncaught e, s')
    end.

(** [print(line)] *)
Definition print (line : string) : M unit :=
  fun s => (Ret tt, mkState (stdout s ++ [line]) (io s)).

(** [sys.exit(code)] *)
Definition sys_exit {A} (code : Z) : M A := fun s => (Exit code, s).

Definition raise {A} (exn : string) : M A := fun s => (Uncaught exn, s).

Definition emit (e : event) : M unit :=
  fun s => (Ret tt, mkState (stdout s) (io s ++ [e])).

End Py.

Import Py.

Notation "x <- m ;; k" := (bind m (fun x => k))
  (at level 61, m at next level, right associativity).
Notation "m ;;; k" := (bind m (fun _ => k))
  (at level 61, right associativity).

(** ** The messages the program prints *)

Definition MSG_FILE : string := "JSON FILE NOT FOUND!".
Definition MSG_KEYS : string := "Requested KEY(s) not present in input file!".
Definition MSG_COUNT : string :=
  "Number of keys provided does not match the -n argument!".

(** ** The program *)

(** The namespace [parse_arguments] returns: [-f], [-n], [-k], [-c]. *)
Record args : Type := mkArgs {
  args_f : string;
  args_n : Z;
  args_k : string;
  args_c : bool
}.

(** [os.path.join(a, b)] of [posixpath]. *)
Definition os_path_join (a b : string) : string :=
  if PyStr.startswith b "/" then b
  else if negb (PyStr.truthy a) || PyStr.endswith a "/" then a ++ b
  else a ++ "/" ++ b.

(** [load_json_file(filename)] *)
Definition load_json_file (e : env) (filename : string) : M json :=
  let filepath := os_path_join (script_dir e) filename in
  emit (EvIsFile filepath) ;;;
  if negb (os_path_isfile e filepath) then
    print MSG_FILE ;;; sys_exit 1
  else
    emit (EvOpenRead filepath) ;;;
    match json_load e filepath with
    | Some data => ret data
    | None => print MSG_FILE ;;; sys_exit 1
    end.

(** The inner loop of [extract_keys]:
    [for key in keys: if key not in item: ...]. *)
Fixpoint check_keys (item : PyDict.dict json) (keys : list string) : M unit :=
  match keys with
  | [] => ret tt
  | key :: keys' =>
      if negb (PyDict.contains key item) then
        print MSG_KEYS ;;; sys_exit 1
      else check_keys item keys'
  end.

(** [{key: item[key] for key in keys}], filling [new_item] from the left. *)
Fixpoint comprehension (item : PyDict.dict json) (keys : list string)
    (new_item : PyDict.dict json) : M (PyDict.dict json) :=
  match keys with
  | [] => ret new_item
  | key :: keys' =>
      match PyDict.getitem key item with
      | None => raise "KeyError"
      | Some v => comprehension item keys' (PyDict.setitem key v new_item)
      end
  end.

(** The outer loop of [extract_keys], [subset] being the list built so
    far. *)
Fixpoint extract_loop (data : list json) (keys : list string)
    (subset : list json) : M (list json) :=
  match data with
  | [] => ret subset
  | item :: data' =>
      match item with
      | JObj d =>
          check_keys d keys ;;;
          new_item <- comprehension d keys [] ;;
          extract_loop data' keys (subset ++ [JObj new_item])
      | _ => print MSG_FILE ;;; sys_exit 1
      end
  end.

(** [extract_keys(data, keys)] *)
Definition extract_keys (data : list json) (keys : list string)
  : M (list json) :=
  extract_loop data keys [].

(** [output_json(data)] with its default file name. *)
Definition output_json (e : env) (data : list json) : M unit :=
  let output_filename := "json_output.json" in
  emit (EvOpenWrite output_filename) ;;;
  match write_exn e output_filename with
  | None =>
      emit (EvJsonDump output_filename data 4) ;;;
      print ("JSON output written to " ++ output_filename)
  | Some exn =>
      print ("Error writing JSON file: " ++ exn) ;;; sys_exit 1
  end.

(** [output_csv(data, keys)] with its default file name. *)
Definition output_csv (e : env) (data : list json) (keys : list string)
  : M unit :=
  let output_filename := "json_output.csv" in
  emit (EvOpenWrite output_filename) ;;;
  match write_exn e output_filename with
  | None =>
      emit (EvCsvWrite output_filename keys data) ;;;
      print ("CSV output written to " ++ output_filename)
  | Some exn =>
      print ("Error writing CSV file: " ++ exn) ;;; sys_exit 1
  end.

(** [[key.strip() for key in toks if key.strip()]] *)
Fixpoint strip_nonempty (toks : list string) : list string :=
  match toks with
  | [] => []
  | key :: toks' =>
      if PyStr.truthy (PyStr.strip key)
      then PyStr.strip key :: strip_nonempty toks'
      else strip_nonempty toks'
  end.

(** The key list [main] computes from [-k]. *)
Definition parse_keys (k : string) : list string :=
  strip_nonempty (PyStr.split "," k).

(** [main()], after [parse_arguments] returned [a]. *)
Definition main (e : env) (a : args) : M unit :=
  let keys := parse_keys (args_k a) in
  (if negb (Z.of_nat (length keys) =? args_n a)%Z then
     print MSG_COUNT ;;; sys_exit 1
   else ret tt) ;;;
  data <- load_json_file e (args_f a) ;;
  match data with
  | JArr items =>
      subset_data <- extract_keys items keys ;;
      if args_c a then output_csv e subset_data keys
      else output_json e subset_data
  | _ => print MSG_FILE ;;; sys_exit 1
  end.

(** One run of the program as the shell sees it. *)
Record run_result : Type := mkRun {
  run_stdout : list string;
  run_exit : Z;
  run_io : list event
}.

Definition exit_status {A} (o : outcome A) : Z :=
  match o with
  | Ret _ => 0
  | Exit c => c
  | Uncaught _ => 1
  end.

Definition run (e : env) (a : args) : run_result :=
  let '(o, s) := main e a init in
  mkRun (stdout s) (exit_status o) (io s).

(** The run printed [msg] as its only line and left with status 1. *)
Definition fails_with (r : run_result) (msg : string) : Prop :=
  run_stdout r = [msg] /\ run_exit r = 1%Z.

(** No file was opened for writing. *)
Fixpoint no_output (tr : list event) : bool :=
  match tr with
  | [] => true
  | EvOpenWrite _ :: _ | EvJsonDump _ _ _ :: _ | EvCsvWrite _ _ _ :: _ => false
  | _ :: tr' => no_output tr'
  end.

(** ** Vocabulary of the specification *)

(** [k in keys] for a list of keys. *)
Definition mem (k : string) (l : list string) : bool :=
  existsb (String.eqb k) l.

(** The keys of [ks] not in [seen], each at its first occurrence. *)
Fixpoint first_occurrences (seen ks : list string) : list string :=
  match ks with
  | [] => []
  | k :: ks' =>
      if mem k seen then first_occurrences seen ks'
      else k :: first_occurrences (seen ++ [k]) ks'
  end.

(** The distinct keys of a KeySpec, in order of first occurrence. *)
Definition distinct (ks : list string) : list string :=
  first_occurrences [] ks.

(** The object holds every key of the KeySpec. *)
Definition has_all (keys : list string) (d : PyDict.dict json) : bool :=
  forallb (fun k => PyDict.contains k d) keys.

(** A list element the projection accepts: an object with every key. *)
Definition valid (keys : list string) (v : json) : bool :=
  match v with
  | JObj d => has_all keys d
  | _ => false
  end.

(** [d'] is the ProjectedRecord of [d]: the distinct KeySpec keys in
    KeySpec order, each with the value it has in [d], and nothing else. *)
Definition is_projection (keys : list string) (d d' : PyDict.dict json)
  : Prop :=
  PyDict.keys d' = distinct keys /\
  (forall k, In k keys -> PyDict.getitem k d' = PyDict.getitem k d) /\
  (forall k, ~ In k keys -> PyDict.getitem k d' = None).

(** The KeySpec in the words of the specification: split on commas, trim
    every token, drop the tokens that are empty after trimming. *)
Definition spec_KeySpec (k : string) : list string :=
  filter PyStr.truthy (map PyStr.strip (PyStr.split "," k)).

(** The path the loader opens. *)
Definition input_path (e : env) (a : args) : string :=
  os_path_join (script_dir e) (args_f a).

(** The pure content of the dictionary comprehension. *)
Fixpoint project_into (d : PyDict.dict json) (keys : list string)
    (acc : PyDict.dict json) : PyDict.dict json :=
  match keys with
  | [] => acc
  | k :: keys' =>
      match PyDict.getitem k d with
      | Some v => project_into d keys' (PyDict.setitem k v acc)
      | None => project_into d keys' acc
      end
  end.

Definition project_json (keys : list string) (v : json) : json :=
  match v with
  | JObj d => JObj (project_into d keys [])
  | _ => v
  end.

(** Appending the diagnostic [msg] to the output and leaving with 1. *)
Definition die {A} (msg : string) (s : state) : outcome A * state :=
  (Exit 1%Z, mkState (stdout s ++ [msg]) (io s)).

(** The first element the projection rejects, if there is one. *)
Definition first_invalid (keys : list string) (data : list json)
  : option json :=
  find (fun v => negb (valid keys v)) data.

(** The diagnostic for a rejected element. *)
Definition reject_msg (bad : json) : string :=
  if is_dict bad then MSG_KEYS else MSG_FILE.

(** The output file of a run and the call that fills it. *)
Definition output_path (a : args) : string :=
  if args_c a then "json_output.csv" else "json_output.json".

Definition output_event (a : args) (keys : list string) (out : list json)
  : event :=
  if args_c a then EvCsvWrite "json_output.csv" keys out
  else EvJsonDump "json_output.json" out 4.

Definition output_done (a : args) : string :=
  if args_c a then "CSV output written to json_output.csv"
  else "JSON output written to json_output.json".

Definition output_error (a : args) (exn : string) : string :=
  if args_c a then "Error writing CSV file: " ++ exn
  else "Error writing JSON file: " ++ exn.

(** An input file for the examples: [[{"a":1,"b":2,"c":3}]]. *)
Definition sample_record : PyDict.dict json :=
  [("a", JInt 1); ("b", JInt 2); ("c", JInt 3)].

(** A file system holding [in.json] next to the program, with content
    [content] when it parses, where every write succeeds. *)
Definition sample_env (content : option json) : env :=
  mkEnv "/opt/tool"
        (fun p => String.eqb p "/opt/tool/in.json")
        (fun p => if String.eqb p "/opt/tool/in.json" then content else None)
        (fun _ => None).

(** A file system without any file. *)
Definition empty_env : env :=
  mkEnv "/opt/tool" (fun _ => false) (fun _ => None) (fun _ => None).

(** The character [sep] does not occur in [s]. *)
Fixpoint lacks (sep : ascii) (s : string) : bool :=
  match s with
  | EmptyString => true
  | String c s' => negb (Ascii.eqb c sep) && lacks sep s'
  end.

(** A string is empty or starts with a character that is no whitespace. *)
Definition starts_solid (s : string) : Prop :=
  match s with
  | EmptyString => True
  | String c _ => PyStr.isspace c = false
  end.

(** A key as [main] can hand it to the projection: not empty, no
    whitespace at either end, no comma. *)
Definition clean_key (key : string) : bool :=
  PyStr.truthy key && String.eqb (PyStr.strip key) key && lacks "," key.

(** Two list elements that are objects with the same value, or the same
    absence of a value, under every key of [keys]. *)
Definition agree_on (keys : list string) (v1 v2 : json) : Prop :=
  exists d1 d2, v1 = JObj d1 /\ v2 = JObj d2 /\
    forall k, In k keys -> PyDict.getitem k d1 = PyDict.getitem k d2.

(** The file system calls of a run that goes all the way, writing
    [out]. *)
Definition pipeline (e : env) (a : args) (out : list json) : list event :=
  [EvIsFile (input_path e a); EvOpenRead (input_path e a);
   EvOpenWrite (output_path a);
   output_event a (parse_keys (args_k a)) out].

(** The file system of [sample_env] with every write refused. *)
Definition readonly_env (content : option json) : env :=
  mkEnv "/opt/tool"
        (fun p => String.eqb p "/opt/tool/in.json")
        (fun p => if String.eqb p "/opt/tool/in.json" then content else None)
        (fun _ => Some "Permission denied").

(** The ways a run can go, one per exit of [main], with what the shell
    sees in each. *)
Inductive run_spec (e : env) (a : args) : run_result -> Prop :=
| RunCount :
    Z.of_nat (length (parse_keys (args_k a))) <> args_n a ->
    run_spec e a (mkRun [MSG_COUNT] 1 [])
| RunNoFile :
    Z.of_nat (length (parse_keys (args_k a))) = args_n a ->
    os_path_isfile e (input_path e a) = false ->
    run_spec e a (mkRun [MSG_FILE] 1 [EvIsFile (input_path e a)])
| RunNoParse :
    Z.of_nat (length (parse_keys (args_k a))) = args_n a ->
    os_path_isfile e (input_path e a) = true ->
    json_load e (input_path e a) = None ->
    run_spec e a (mkRun [MSG_FILE] 1
                        [EvIsFile (input_path e a);
                         EvOpenRead (input_path e a)])
| RunNotList (v : json) :
    Z.of_nat (length (parse_keys (args_k a))) = args_n a ->
    os_path_isfile e (input_path e a) = true ->
    json_load e (input_path e a) = Some v ->
    is_list v = false ->
    run_spec e a (mkRun [MSG_FILE] 1
                        [EvIsFile (input_path e a);
                         EvOpenRead (input_path e a)])
| RunReject (items : list json) (bad : json) :
    Z.of_nat (length (parse_keys (args_k a))) = args_n a ->
    os_path_isfile e (input_path e a) = true ->
    json_load e (input_path e a) = Some (JArr items) ->
    first_invalid (parse_keys (args_k a)) items = Some bad ->
    run_spec e a (mkRun [reject_msg bad] 1
                        [EvIsFile (input_path e a);
                         EvOpenRead (input_path e a)])
| RunWriteError (items : list json) (exn : string) :
    Z.of_nat (length (parse_keys (args_k a))) = args_n a ->
    os_path_isfile e (input_path e a) = true ->
    json_load e (input_path e a) = Some (JArr items) ->
    first_invalid (parse_keys (args_k a)) items = None ->
    write_exn e (output_path a) = Some exn ->
    run_spec e a (mkRun [output_error a exn] 1
                        [EvIsFile (input_path e a);
                         EvOpenRead (input_path e a);
                         EvOpenWrite (output_path a)])
| RunDone (items : list json) :
    Z.of_nat (length (parse_keys (args_k a))) = args_n a ->
    os_path_isfile e (input_path e a) = true ->
    json_load e (input_path e a) = Some (JArr items) ->
    first_invalid (parse_keys (args_k a)) items = None ->
    write_exn e (output_path a) = None ->
    run_spec e a
      (mkRun [output_done a] 0
             (pipeline e a (map (project_json (parse_keys (args_k a)))
                                items))).

(** Every character of [s] is whitespace. *)
Fixpoint all_space (s : string) : bool :=
  match s with
  | EmptyString => true
  | String c s' => PyStr.isspace c && all_space s'
  end.

(** A string is empty or ends with a character that is no whitespace. *)
Fixpoint ends_solid (s : string) : Prop :=
  match s with
  | EmptyString => True
  | String c EmptyString => PyStr.isspace c = false
  | String _ s' => ends_solid s'
  end.

(** [u] is [t] with the whitespace at both ends taken away: [t] is [u]
    between two runs of whitespace, and [u] has whitespace at neither
    end. *)
Definition trimmed (t u : string) : Prop :=
  exists l r, t = (l ++ u ++ r)%string /\
    all_space l = true /\ all_space r = true /\
    starts_solid u /\ ends_solid u.

(** [ks] is the list of tokens [toks], each trimmed, without those that
    are empty once trimmed, in the order of the tokens. *)
Inductive keyspec_of : list string -> list string -> Prop :=
| KeyspecNil : keyspec_of [] []
| KeyspecDrop (t : string) (toks ks : list string) :
    trimmed t EmptyString -> keyspec_of toks ks ->
    keyspec_of (t :: toks) ks
| KeyspecKeep (t u : string) (toks ks : list string) :
    trimmed t u -> u <> EmptyString -> keyspec_of toks ks ->
    keyspec_of (t :: toks) (u :: ks).

(** ** The model on small inputs *)

Example split_empty : PyStr.split "," "" = [""].
Proof. reflexivity. Qed.

Example split_commas : PyStr.split "," ",a,,b ," = [""; "a"; ""; "b "; ""].
Proof. reflexivity. Qed.

Example strip_inner_space : PyStr.strip "  a b  " = "a b".
Proof. reflexivity. Qed.

Example parse_keys_trims : parse_keys " c , a,, c" = ["c"; "a"; "c"].
Proof. reflexivity. Qed.

Example join_relative : os_path_join "/opt/tool" "in.json" = "/opt/tool/in.json".
Proof. reflexivity. Qed.

Example join_absolute : os_path_join "/opt/tool" "/tmp/in.json" = "/tmp/in.json".
Proof. reflexivity. Qed.

Example setitem_overwrites_in_place :
  PyDict.setitem "a" 3 [("a", 1); ("b", 2)] = [("a", 3); ("b", 2)].
Proof. reflexivity. Qed.

Example run_missing_key :
  run (sample_env (Some (JArr [JObj sample_record])))
      (mkArgs "in.json" 2 "a,z" false) =
  mkRun [MSG_KEYS] 1
        [EvIsFile "/opt/tool/in.json"; EvOpenRead "/opt/tool/in.json"].
Proof. reflexivity. Qed.

Example run_not_an_object :
  run (sample_env (Some (JArr [JObj sample_record; JInt 7])))
      (mkArgs "in.json" 1 "a" true) =
  mkRun [MSG_FILE] 1
        [EvIsFile "/opt/tool/in.json"; EvOpenRead "/opt/tool/in.json"].
Proof. reflexivity. Qed.

Example run_csv :
  run (sample_env (Some (JArr [JObj [("a", JInt 1); ("b", JInt 2)]])))
      (mkArgs "in.json" 2 "a, b" true) =
  mkRun ["CSV output written to json_output.csv"] 0
        [EvIsFile "/opt/tool/in.json"; EvOpenRead "/opt/tool/in.json";
         EvOpenWrite "json_output.csv";
         EvCsvWrite "json_output.csv" ["a"; "b"]
                    [JObj [("a", JInt 1); ("b", JInt 2)]]].
Proof. reflexivity. Qed.

(** ** Facts about keys and dictionaries *)

Section KeyFacts.

Lemma mem_In (k : string) (l : list string) : mem k l = true <-> In k l.
Proof.
  unfold mem. rewrite existsb_exists. split.
  - intros [x [Hx He]]. apply String.eqb_eq in He. now subst.
  - intros H. exists k. split; [assumption | apply String.eqb_refl].
Qed.

Lemma mem_not_In (k : string) (l : list string) :
  mem k l = false <-> ~ In k l.
Proof.
  rewrite <- mem_In. destruct (mem k l); split; congruence.
Qed.

Lemma first_occurrences_In (ks seen : list string) (k : string) :
  In k (first_occurrences seen ks) <-> In k ks /\ ~ In k seen.
Proof.
  revert seen. induction ks as [|k0 ks IH]; intros seen; simpl.
  - tauto.
  - destruct (mem k0 seen) eqn:Hm.
    + apply mem_In in Hm. rewrite IH. split.
      * intros [H1 H2]. auto.
      * intros [[H1 | H1] H2]; [subst; contradiction | auto].
    + apply mem_not_In in Hm. simpl. rewrite IH, in_app_iff. simpl. split.
      * intros [H | [H1 H2]]; [subst; auto | ]. split; auto.
      * intros [[H | H] H2]; [auto |].
        destruct (string_dec k0 k) as [E | E]; [auto | right].
        split; [assumption | intros [H3 | [H3 | []]]; contradiction].
Qed.

Lemma first_occurrences_NoDup (ks seen : list string) :
  NoDup (first_occurrences seen ks).
Proof.
  revert seen. induction ks as [|k0 ks IH]; intros seen; simpl.
  - constructor.
  - destruct (mem k0 seen); [apply IH |].
    constructor; [| apply IH].
    rewrite first_occurrences_In, in_app_iff. simpl. tauto.
Qed.

Lemma first_occurrences_length (ks seen : list string) :
  length (first_occurrences seen ks) <= length ks.
Proof.
  revert seen. induction ks as [|k0 ks IH]; intros seen; simpl.
  - lia.
  - destruct (mem k0 seen); simpl.
    + specialize (IH seen). lia.
    + specialize (IH (seen ++ [k0])). lia.
Qed.

End KeyFacts.

Section DistinctFacts.

Lemma first_occurrences_id (ks seen : list string) :
  NoDup ks -> (forall k, In k ks -> ~ In k seen) ->
  first_occurrences seen ks = ks.
Proof.
  revert seen. induction ks as [|k0 ks IH]; intros seen Hnd Hdisj; simpl.
  - reflexivity.
  - inversion Hnd as [|? ? Hk0 Hnd']; subst.
    assert (Hm : mem k0 seen = false)
      by (apply mem_not_In, Hdisj; now left).
    rewrite Hm. f_equal. apply IH; [assumption |].
    intros k Hk. rewrite in_app_iff. simpl.
    intros [H | [H | []]].
    + apply (Hdisj k); [now right | assumption].
    + subst. contradiction.
Qed.

Lemma distinct_In (ks : list string) (k : string) :
  In k (distinct ks) <-> In k ks.
Proof. unfold distinct. rewrite first_occurrences_In. simpl. tauto. Qed.

Lemma distinct_NoDup (ks : list string) : NoDup (distinct ks).
Proof. apply first_occurrences_NoDup. Qed.

Lemma distinct_id (ks : list string) : NoDup ks -> distinct ks = ks.
Proof. intros H. apply first_occurrences_id; auto. Qed.

Lemma distinct_length (ks : list string) :
  length (distinct ks) <= length ks.
Proof. apply first_occurrences_length. Qed.

(** A repeated key makes the list of distinct keys strictly shorter. *)
Lemma distinct_shorter (ks : list string) :
  ~ NoDup ks -> length (distinct ks) < length ks.
Proof.
  intros Hdup.
  destruct (Nat.lt_ge_cases (length (distinct ks)) (length ks)) as [H | H];
    [assumption | exfalso; apply Hdup].
  apply (NoDup_incl_NoDup (distinct_NoDup ks)); [assumption |].
  intros k Hk. now apply distinct_In.
Qed.

End DistinctFacts.

Section DictFacts.

Context {V : Type}.
Implicit Types (d : PyDict.dict V) (k : string) (v : V).

Lemma contains_In k d : PyDict.contains k d = true <-> In k (PyDict.keys d).
Proof.
  induction d as [|[k' v'] d IH]; simpl.
  - split; [discriminate | tauto].
  - destruct (String.eqb k' k) eqn:E.
    + apply String.eqb_eq in E. tauto.
    + apply String.eqb_neq in E. rewrite IH. tauto.
Qed.

Lemma contains_getitem k d :
  PyDict.contains k d = true <-> PyDict.getitem k d <> None.
Proof.
  induction d as [|[k' v'] d IH]; simpl.
  - split; [discriminate | congruence].
  - destruct (String.eqb k' k); [split; [discriminate | reflexivity] | exact IH].
Qed.

Lemma getitem_None k d :
  PyDict.contains k d = false -> PyDict.getitem k d = None.
Proof.
  intros H. destruct (PyDict.getitem k d) eqn:E; [| reflexivity].
  assert (PyDict.contains k d = true) by (apply contains_getitem; congruence).
  congruence.
Qed.

Lemma getitem_setitem_same k v d :
  PyDict.getitem k (PyDict.setitem k v d) = Some v.
Proof.
  induction d as [|[k' v'] d IH]; simpl.
  - now rewrite String.eqb_refl.
  - destruct (String.eqb k' k) eqn:E; simpl; rewrite E; [reflexivity | exact IH].
Qed.

Lemma getitem_setitem_other k k0 v d :
  k0 <> k -> PyDict.getitem k (PyDict.setitem k0 v d) = PyDict.getitem k d.
Proof.
  intros Hne. induction d as [|[k' v'] d IH]; simpl.
  - apply String.eqb_neq in Hne. now rewrite Hne.
  - destruct (String.eqb k' k0) eqn:E; simpl.
    + apply String.eqb_eq in E. subst k'.
      apply String.eqb_neq in Hne. now rewrite Hne.
    + now rewrite IH.
Qed.

(** Assignment keeps the position of a key that is there and appends a
    key that is not. *)
Lemma keys_setitem k v d :
  PyDict.keys (PyDict.setitem k v d) =
  if mem k (PyDict.keys d) then PyDict.keys d else PyDict.keys d ++ [k].
Proof.
  induction d as [|[k' v'] d IH]; simpl.
  - reflexivity.
  - unfold mem in *. simpl. rewrite (String.eqb_sym k k').
    destruct (String.eqb k' k) eqn:E; simpl; [reflexivity |].
    unfold PyDict.keys in *. rewrite IH.
    destruct (existsb (String.eqb k) (map fst d)); reflexivity.
Qed.

End DictFacts.

(** ** The projection of one object *)

Section ProjectFacts.

Implicit Types (d acc : PyDict.dict json) (keys : list string).

Lemma has_all_In keys d :
  has_all keys d = true <-> forall k, In k keys -> PyDict.contains k d = true.
Proof. unfold has_all. apply forallb_forall. Qed.

Lemma has_all_cons k keys d :
  has_all (k :: keys) d = true ->
  (exists v, PyDict.getitem k d = Some v) /\ has_all keys d = true.
Proof.
  unfold has_all. simpl. intros H. apply andb_prop in H as [Hk Hr].
  split; [| assumption].
  apply contains_getitem in Hk.
  destruct (PyDict.getitem k d) as [v |]; [now exists v | congruence].
Qed.

Lemma keys_project_into keys d acc :
  has_all keys d = true ->
  PyDict.keys (project_into d keys acc) =
  PyDict.keys acc ++ first_occurrences (PyDict.keys acc) keys.
Proof.
  revert acc. induction keys as [|k keys IH]; intros acc Hall; simpl.
  - now rewrite app_nil_r.
  - apply has_all_cons in Hall as [[v Hv] Hall]. rewrite Hv.
    rewrite (IH _ Hall), keys_setitem.
    destruct (mem k (PyDict.keys acc)); [reflexivity |].
    now rewrite <- app_assoc.
Qed.

Lemma getitem_project_into keys d acc (k : string) :
  has_all keys d = true ->
  PyDict.getitem k (project_into d keys acc) =
  if mem k keys then PyDict.getitem k d else PyDict.getitem k acc.
Proof.
  revert acc. induction keys as [|k0 keys IH]; intros acc Hall; simpl.
  - reflexivity.
  - apply has_all_cons in Hall as [[v Hv] Hall]. rewrite Hv.
    rewrite (IH _ Hall). unfold mem. simpl. fold (mem k keys).
    destruct (mem k keys); simpl; [now rewrite orb_true_r |].
    rewrite orb_false_r.
    destruct (String.eqb k k0) eqn:E.
    + apply String.eqb_eq in E. subst k0.
      now rewrite getitem_setitem_same.
    + apply String.eqb_neq in E.
      apply getitem_setitem_other. congruence.
Qed.

(** What the comprehension builds is the ProjectedRecord. *)
Lemma project_into_is_projection keys d :
  has_all keys d = true -> is_projection keys d (project_into d keys []).
Proof.
  intros Hall. repeat split.
  - now rewrite keys_project_into.
  - intros k Hk. rewrite getitem_project_into by assumption.
    apply mem_In in Hk. now rewrite Hk.
  - intros k Hk. rewrite getitem_project_into by assumption.
    apply mem_not_In in Hk. now rewrite Hk.
Qed.

End ProjectFacts.

(** ** The loops of [extract_keys], step by step *)

Section LoopFacts.

Implicit Types (d acc : PyDict.dict json) (keys : list string) (s : state).

Lemma check_keys_eq keys d s :
  check_keys d keys s =
  if has_all keys d then (Ret tt, s) else die MSG_KEYS s.
Proof.
  induction keys as [|k keys IH]; simpl.
  - reflexivity.
  - unfold has_all in *. simpl.
    destruct (PyDict.contains k d); simpl; [exact IH | reflexivity].
Qed.

Lemma comprehension_eq keys d acc s :
  has_all keys d = true ->
  comprehension d keys acc s = (Ret (project_into d keys acc), s).
Proof.
  revert acc. induction keys as [|k keys IH]; intros acc Hall; simpl.
  - reflexivity.
  - apply has_all_cons in Hall as [[v Hv] Hall]. rewrite Hv. now apply IH.
Qed.

Lemma extract_loop_eq keys (data subset : list json) s :
  extract_loop data keys subset s =
  match first_invalid keys data with
  | None => (Ret (subset ++ map (project_json keys) data), s)
  | Some bad => die (reject_msg bad) s
  end.
Proof.
  revert subset. induction data as [|item data IH]; intros subset; simpl.
  - unfold ret. now rewrite app_nil_r.
  - unfold first_invalid in *. simpl.
    destruct item; simpl; try reflexivity.
    unfold bind. rewrite check_keys_eq.
    destruct (has_all keys d) eqn:Hall; simpl; [| reflexivity].
    rewrite (comprehension_eq _ _ _ _ Hall), IH.
    destruct (find _ data); [reflexivity |].
    now rewrite <- app_assoc.
Qed.

Lemma extract_keys_eq keys (data : list json) s :
  extract_keys data keys s =
  match first_invalid keys data with
  | None => (Ret (map (project_json keys) data), s)
  | Some bad => die (reject_msg bad) s
  end.
Proof. unfold extract_keys. now rewrite extract_loop_eq. Qed.

Lemma first_invalid_None keys (data : list json) :
  first_invalid keys data = None <-> Forall (fun v => valid keys v = true) data.
Proof.
  unfold first_invalid. induction data as [|v data IH]; simpl.
  - split; [constructor | reflexivity].
  - destruct (valid keys v) eqn:E; simpl.
    + rewrite IH. split; [now constructor | now inversion 1].
    + split; [discriminate | inversion 1; congruence].
Qed.

(** A rejected element splits the list: a valid prefix, the element, and a
    rest the loop never looks at. *)
Lemma first_invalid_Some keys (data : list json) (bad : json) :
  first_invalid keys data = Some bad <->
  exists pre rest, data = pre ++ bad :: rest /\
                   Forall (fun v => valid keys v = true) pre /\
                   valid keys bad = false.
Proof.
  unfold first_invalid. revert bad.
  induction data as [|v data IH]; intros bad; simpl.
  - split; [discriminate | intros (pre & rest & H & _); now destruct pre].
  - destruct (valid keys v) eqn:E; simpl.
    + rewrite IH. split.
      * intros (pre & rest & -> & Hp & Hb).
        exists (v :: pre), rest. repeat split; auto.
      * intros (pre & rest & Hd & Hp & Hb).
        destruct pre as [|p pre]; simpl in Hd; injection Hd as -> ->.
        -- congruence.
        -- inversion Hp; subst. now exists pre, rest.
    + split.
      * intros [= ->]. exists [], data. repeat split; auto.
      * intros (pre & rest & Hd & Hp & Hb).
        destruct pre as [|p pre]; simpl in Hd; injection Hd as -> ->.
        -- reflexivity.
        -- inversion Hp; subst. congruence.
Qed.

End LoopFacts.

(** ** The whole run *)

Section RunFacts.

Lemma parse_keys_spec (k : string) : parse_keys k = spec_KeySpec k.
Proof.
  unfold parse_keys, spec_KeySpec.
  induction (PyStr.split "," k) as [|t ts IH]; simpl.
  - reflexivity.
  - destruct (PyStr.truthy (PyStr.strip t)); now rewrite IH.
Qed.

(** [main] as a decision tree over the answers of the file system. *)
Lemma run_eq (e : env) (a : args) :
  run e a =
  let keys := parse_keys (args_k a) in
  let p := input_path e a in
  if negb (Z.of_nat (length keys) =? args_n a)%Z then
    mkRun [MSG_COUNT] 1 []
  else if negb (os_path_isfile e p) then
    mkRun [MSG_FILE] 1 [EvIsFile p]
  else
    match json_load e p with
    | None => mkRun [MSG_FILE] 1 [EvIsFile p; EvOpenRead p]
    | Some (JArr items) =>
        match first_invalid keys items with
        | Some bad => mkRun [reject_msg bad] 1 [EvIsFile p; EvOpenRead p]
        | None =>
            let out := map (project_json keys) items in
            match write_exn e (output_path a) with
            | None =>
                mkRun [output_done a] 0
                      [EvIsFile p; EvOpenRead p; EvOpenWrite (output_path a);
                       output_event a keys out]
            | Some exn =>
                mkRun [output_error a exn] 1
                      [EvIsFile p; EvOpenRead p; EvOpenWrite (output_path a)]
            end
        end
    | Some _ => mkRun [MSG_FILE] 1 [EvIsFile p; EvOpenRead p]
    end.
Proof.
  unfold run, main, input_path, load_json_file, bind. simpl.
  destruct (Z.of_nat (length (parse_keys (args_k a))) =? args_n a)%Z;
    simpl; [| reflexivity].
  destruct (os_path_isfile e _); simpl; [| reflexivity].
  destruct (json_load e _) as [v |]; simpl; [| reflexivity].
  destruct v; simpl; try reflexivity.
  rewrite extract_keys_eq.
  destruct (first_invalid _ items); simpl; [reflexivity |].
  unfold output_path, output_event, output_done, output_error.
  destruct (args_c a); unfold output_csv, output_json, bind; simpl;
    destruct (write_exn e _); reflexivity.
Qed.

End RunFacts.

(** ** Properties of the projection step *)

Section Projection.

Implicit Types (d : PyDict.dict json) (keys : list string) (s : state).

Lemma valid_inv keys (v : json) :
  valid keys v = true -> exists d, v = JObj d /\ has_all keys d = true.
Proof. destruct v; simpl; try discriminate. intros H. now exists d. Qed.

Lemma extract_keys_all_valid keys (items : list json) s :
  Forall (fun v => valid keys v = true) items ->
  extract_keys items keys s = (Ret (map (project_json keys) items), s).
Proof.
  intros H. apply first_invalid_None in H.
  now rewrite extract_keys_eq, H.
Qed.

Lemma extract_keys_returns keys (items subset : list json) s s' :
  extract_keys items keys s = (Ret subset, s') ->
  Forall (fun v => valid keys v = true) items /\
  subset = map (project_json keys) items /\ s' = s.
Proof.
  rewrite extract_keys_eq.
  destruct (first_invalid keys items) eqn:E; [discriminate |].
  intros [= <- <-]. apply first_invalid_None in E. auto.
Qed.

End Projection.

(** C1 (as amended): every projected record a successful projection
    returns is an object with exactly one entry per distinct KeySpec key, in
    the order in which the keys first occur in KeySpec; so it never has more
    than len(KeySpec) entries, and it has exactly len(KeySpec) entries, in
    KeySpec order, when KeySpec names no key twice. *)
Theorem C1_projected_record_entries
    (items : list json) (keys : list string) (s s' : state)
    (subset : list json) (v : json) :
  extract_keys items keys s = (Ret subset, s') ->
  In v subset ->
  exists d, v = JObj d /\
    PyDict.keys d = distinct keys /\
    PyDict.len d = length (distinct keys) /\
    PyDict.len d <= length keys /\
    (NoDup keys -> PyDict.keys d = keys /\ PyDict.len d = length keys).
Proof.
  intros Hrun Hin.
  apply extract_keys_returns in Hrun as (Hall & -> & _).
  apply in_map_iff in Hin as (item & <- & Hitem).
  rewrite Forall_forall in Hall.
  destruct (valid_inv _ _ (Hall _ Hitem)) as (d & -> & Hd).
  exists (project_into d keys []). simpl.
  assert (Hk : PyDict.keys (project_into d keys []) = distinct keys)
    by now rewrite keys_project_into.
  assert (Hl : PyDict.len (project_into d keys []) = length (distinct keys)).
  { unfold PyDict.len. rewrite <- Hk. unfold PyDict.keys.
    now rewrite length_map. }
  repeat split; try assumption.
  - rewrite Hl. apply distinct_length.
  - rewrite Hk. now apply distinct_id.
  - rewrite Hl. f_equal. now apply distinct_id.
Qed.

Lemma C1_projected_record_entries_witness :
  exists d, JObj [("a", JInt 1); ("c", JInt 3)] = JObj d /\
    PyDict.keys d = distinct ["a"; "c"] /\
    PyDict.len d = length (distinct ["a"; "c"]) /\
    PyDict.len d <= length ["a"; "c"] /\
    (NoDup ["a"; "c"] ->
     PyDict.keys d = ["a"; "c"] /\ PyDict.len d = length ["a"; "c"]).
Proof.
  apply (C1_projected_record_entries
           [JObj sample_record] ["a"; "c"] init init
           [JObj [("a", JInt 1); ("c", JInt 3)]]).
  - reflexivity.
  - simpl. left. reflexivity.
Defined.

(** C1 as stated fails: with the KeySpec [a, a] the run passes the count
    check for -n 2, succeeds, and writes a record with one entry, not
    two. *)
Lemma C1_duplicate_keys_counterexample :
  run (sample_env (Some (JArr [JObj sample_record])))
      (mkArgs "in.json" 2 "a,a" false) =
  mkRun ["JSON output written to json_output.json"] 0
        [EvIsFile "/opt/tool/in.json"; EvOpenRead "/opt/tool/in.json";
         EvOpenWrite "json_output.json";
         EvJsonDump "json_output.json" [JObj [("a", JInt 1)]] 4] /\
  extract_keys [JObj sample_record] (parse_keys "a,a") init =
  (Ret [JObj [("a", JInt 1)]], init) /\
  PyDict.len [("a", JInt 1)] <> length (parse_keys "a,a").
Proof.
  repeat split; try reflexivity. vm_compute. discriminate.
Qed.

(** C4: on a list whose elements are all objects holding every KeySpec
    key, the projection returns (printing nothing) a list of the same
    length whose i-th element is the projection of the i-th input
    element. *)
Theorem C4_length_and_order
    (items : list json) (keys : list string) (s : state) :
  Forall (fun v => exists d, v = JObj d /\
            forall k, In k keys -> PyDict.contains k d = true) items ->
  exists subset,
    extract_keys items keys s = (Ret subset, s) /\
    length subset = length items /\
    forall i d, nth_error items i = Some (JObj d) ->
      exists d', nth_error subset i = Some (JObj d') /\
                 is_projection keys d d'.
Proof.
  intros Hall.
  assert (Hvalid : Forall (fun v => valid keys v = true) items).
  { eapply Forall_impl; [| exact Hall].
    intros v (d & -> & Hd). simpl. now apply has_all_In. }
  exists (map (project_json keys) items). split; [| split].
  - now apply extract_keys_all_valid.
  - apply length_map.
  - intros i d Hi. exists (project_into d keys []). split.
    + rewrite nth_error_map, Hi. reflexivity.
    + apply project_into_is_projection.
      apply nth_error_In in Hi. rewrite Forall_forall in Hvalid.
      exact (Hvalid _ Hi).
Qed.

Lemma C4_length_and_order_witness :
  exists subset,
    extract_keys [JObj sample_record; JObj [("c", JNull); ("a", JBool true)]]
                 ["c"; "a"] init = (Ret subset, init) /\
    length subset = 2 /\
    forall i d,
      nth_error [JObj sample_record; JObj [("c", JNull); ("a", JBool true)]] i
      = Some (JObj d) ->
      exists d', nth_error subset i = Some (JObj d') /\
                 is_projection ["c"; "a"] d d'.
Proof.
  apply (C4_length_and_order
           [JObj sample_record; JObj [("c", JNull); ("a", JBool true)]]
           ["c"; "a"] init).
  repeat constructor.
  - exists sample_record. split; [reflexivity |].
    intros k [<- | [<- | []]]; reflexivity.
  - eexists. split; [reflexivity |].
    intros k [<- | [<- | []]]; reflexivity.
Defined.

(** C5: when KeySpec names exactly the keys of every record of the list,
    the projection returns, position by position, records equal as
    mappings to the originals. *)
Theorem C5_round_trip
    (items : list json) (keys : list string) (s : state) :
  Forall (fun v => exists d, v = JObj d /\ PyDict.wf d /\
            forall k, In k keys <-> In k (PyDict.keys d)) items ->
  exists subset,
    extract_keys items keys s = (Ret subset, s) /\
    length subset = length items /\
    forall i d, nth_error items i = Some (JObj d) ->
      exists d', nth_error subset i = Some (JObj d') /\ PyDict.equiv d' d.
Proof.
  intros Hall.
  assert (Hvalid : Forall (fun v => valid keys v = true) items).
  { eapply Forall_impl; [| exact Hall].
    intros v (d & -> & _ & Hd). simpl. apply has_all_In.
    intros k Hk. now apply contains_In, Hd. }
  exists (map (project_json keys) items). split; [| split].
  - now apply extract_keys_all_valid.
  - apply length_map.
  - intros i d Hi. exists (project_into d keys []). split.
    + rewrite nth_error_map, Hi. reflexivity.
    + apply nth_error_In in Hi.
      rewrite Forall_forall in Hall, Hvalid.
      destruct (Hall _ Hi) as (d0 & [= <-] & Hwf & Hkeys).
      pose proof (Hvalid _ Hi) as Hd. simpl in Hd.
      split.
      * unfold PyDict.len.
        rewrite <- (length_map fst (project_into d keys [])).
        rewrite <- (length_map fst d).
        change (length (PyDict.keys (project_into d keys [])) =
                length (PyDict.keys d)).
        rewrite keys_project_into by assumption. simpl.
        fold (distinct keys).
        apply Nat.le_antisymm; apply NoDup_incl_length.
        -- apply distinct_NoDup.
        -- intros k Hk. now apply Hkeys, distinct_In.
        -- exact Hwf.
        -- intros k Hk. now apply distinct_In, Hkeys.
      * intros k. rewrite getitem_project_into by assumption.
        destruct (mem k keys) eqn:Hm; [reflexivity |]. simpl.
        symmetry. apply getitem_None.
        destruct (PyDict.contains k d) eqn:Hc; [| reflexivity].
        apply contains_In, Hkeys, mem_In in Hc. congruence.
Qed.

Lemma C5_round_trip_witness :
  exists subset,
    extract_keys [JObj sample_record] ["c"; "a"; "b"; "a"] init
    = (Ret subset, init) /\
    length subset = 1 /\
    forall i d, nth_error [JObj sample_record] i = Some (JObj d) ->
      exists d', nth_error subset i = Some (JObj d') /\ PyDict.equiv d' d.
Proof.
  apply (C5_round_trip [JObj sample_record] ["c"; "a"; "b"; "a"] init).
  repeat constructor.
  exists sample_record. split; [reflexivity | split].
  - unfold PyDict.wf. simpl.
    repeat constructor; simpl; intuition discriminate.
  - intros k. simpl. intuition auto.
Defined.

(** C9: a KeySpec that repeats a key is not an error; for an object
    holding every KeySpec key the projection returns a record with exactly
    one entry per distinct KeySpec key, hence with fewer entries than
    len(KeySpec). *)
Theorem C9_duplicates_collapse
    (d : PyDict.dict json) (keys : list string) (s : state) :
  ~ NoDup keys ->
  (forall k, In k keys -> PyDict.contains k d = true) ->
  exists d',
    extract_keys [JObj d] keys s = (Ret [JObj d'], s) /\
    NoDup (PyDict.keys d') /\
    (forall k, In k (PyDict.keys d') <-> In k keys) /\
    PyDict.len d' < length keys.
Proof.
  intros Hdup Hall. apply has_all_In in Hall.
  exists (project_into d keys []).
  assert (Hk : PyDict.keys (project_into d keys []) = distinct keys)
    by now rewrite keys_project_into.
  split; [| split; [| split]].
  - rewrite extract_keys_all_valid; [reflexivity |].
    constructor; [exact Hall | constructor].
  - rewrite Hk. apply distinct_NoDup.
  - intros k. rewrite Hk. apply distinct_In.
  - unfold PyDict.len.
    rewrite <- (length_map fst (project_into d keys [])).
    change (length (PyDict.keys (project_into d keys [])) < length keys).
    rewrite Hk. now apply distinct_shorter.
Qed.

Lemma C9_duplicates_collapse_witness :
  exists d',
    extract_keys [JObj sample_record] ["c"; "a"; "c"] init
    = (Ret [JObj d'], init) /\
    NoDup (PyDict.keys d') /\
    (forall k, In k (PyDict.keys d') <-> In k ["c"; "a"; "c"]) /\
    PyDict.len d' < 3.
Proof.
  apply (C9_duplicates_collapse sample_record ["c"; "a"; "c"] init).
  - intros H. inversion H as [| ? ? Hc _]. apply Hc. simpl. auto.
  - intros k [<- | [<- | [<- | []]]]; reflexivity.
Defined.

(** ** Properties of the whole run *)

Section RunProperties.

Lemma count_ok (a : args) :
  Z.of_nat (length (parse_keys (args_k a))) = args_n a ->
  negb (Z.of_nat (length (parse_keys (args_k a))) =? args_n a)%Z = false.
Proof. intros H. apply Z.eqb_eq in H. now rewrite H. Qed.

Lemma count_bad (a : args) :
  Z.of_nat (length (parse_keys (args_k a))) <> args_n a ->
  negb (Z.of_nat (length (parse_keys (args_k a))) =? args_n a)%Z = true.
Proof. intros H. apply Z.eqb_neq in H. now rewrite H. Qed.

(** Once the count check has passed, the count diagnostic is not
    printed. *)
Lemma run_no_count_msg (e : env) (a : args) :
  Z.of_nat (length (parse_keys (args_k a))) = args_n a ->
  ~ In MSG_COUNT (run_stdout (run e a)).
Proof.
  intros Hn. rewrite run_eq. cbv zeta. rewrite (count_ok _ Hn).
  destruct (negb (os_path_isfile e _)).
  { simpl. intros [H | []]. discriminate. }
  destruct (json_load e _) as [v |].
  2: { simpl. intros [H | []]. discriminate. }
  destruct v; try (simpl; intros [H | []]; discriminate).
  destruct (first_invalid _ items) as [bad |].
  { unfold reject_msg. destruct (is_dict bad); simpl;
      intros [H | []]; discriminate. }
  unfold output_done, output_error.
  destruct (write_exn e _); destruct (args_c a); simpl;
    intros [H | []]; discriminate.
Qed.

(** With only objects in the list, an object lacking a key is what the
    projection stops at. *)
Lemma first_invalid_lacks_key (keys : list string) (items : list json) :
  Forall (fun v => is_dict v = true) items ->
  (exists d k, In (JObj d) items /\ In k keys /\
               PyDict.contains k d = false) ->
  exists bad, first_invalid keys items = Some (JObj bad) /\
              has_all keys bad = false.
Proof.
  intros Hobj (d & k & Hd & Hk & Hc).
  destruct (first_invalid keys items) as [bad |] eqn:E.
  - pose proof E as E'.
    apply first_invalid_Some in E' as (pre & rest & -> & _ & Hbad).
    rewrite Forall_forall in Hobj.
    assert (Hb : is_dict bad = true)
      by (apply Hobj, in_or_app; right; now left).
    destruct bad; try discriminate. now exists d0.
  - apply first_invalid_None in E. rewrite Forall_forall in E.
    specialize (E _ Hd). simpl in E.
    rewrite has_all_In in E. specialize (E _ Hk). congruence.
Qed.

End RunProperties.

(** C7: when the number of comma-split, trimmed, non-empty tokens of -k
    differs from -n, the run fails with the count diagnostic and status 1
    without a single file system call: nothing is read, nothing is
    written. *)
Theorem C7_count_mismatch_before_io (e : env) (a : args) :
  Z.of_nat (length (spec_KeySpec (args_k a))) <> args_n a ->
  fails_with (run e a) MSG_COUNT /\ run_io (run e a) = [].
Proof.
  rewrite <- parse_keys_spec. intros H.
  rewrite run_eq. cbv zeta. rewrite (count_bad _ H).
  repeat split.
Qed.

Lemma C7_count_mismatch_before_io_witness :
  fails_with (run (sample_env (Some (JArr [JObj sample_record])))
                  (mkArgs "in.json" 3 "a, ,c" false)) MSG_COUNT /\
  run_io (run (sample_env (Some (JArr [JObj sample_record])))
              (mkArgs "in.json" 3 "a, ,c" false)) = [].
Proof.
  apply (C7_count_mismatch_before_io
           (sample_env (Some (JArr [JObj sample_record])))
           (mkArgs "in.json" 3 "a, ,c" false)).
  vm_compute. discriminate.
Defined.

(** C3: in a run that reaches the projection with a list of objects one
    of which lacks a KeySpec key, the run fails with the key diagnostic and
    status 1 and opens no output file; the projection stops at the first
    such object, whatever follows it in the list. *)
Theorem C3_missing_key_aborts (e : env) (a : args) (items : list json) :
  Z.of_nat (length (parse_keys (args_k a))) = args_n a ->
  os_path_isfile e (input_path e a) = true ->
  json_load e (input_path e a) = Some (JArr items) ->
  Forall (fun v => is_dict v = true) items ->
  (exists d k, In (JObj d) items /\ In k (parse_keys (args_k a)) /\
               PyDict.contains k d = false) ->
  fails_with (run e a) MSG_KEYS /\
  no_output (run_io (run e a)) = true /\
  exists pre bad rest,
    items = pre ++ JObj bad :: rest /\
    Forall (fun v => valid (parse_keys (args_k a)) v = true) pre /\
    has_all (parse_keys (args_k a)) bad = false /\
    forall rest' s,
      extract_keys (pre ++ JObj bad :: rest') (parse_keys (args_k a)) s
      = die MSG_KEYS s.
Proof.
  intros Hn Hfile Hload Hobj Hmiss.
  destruct (first_invalid_lacks_key _ _ Hobj Hmiss) as (bad & Hfi & Hbad).
  rewrite run_eq. cbv zeta.
  rewrite (count_ok _ Hn), Hfile, Hload, Hfi. simpl.
  repeat split.
  apply first_invalid_Some in Hfi as (pre & rest & -> & Hpre & Hv).
  exists pre, bad, rest. repeat split; try assumption.
  intros rest' s. rewrite extract_keys_eq.
  assert (Hfi' : first_invalid (parse_keys (args_k a))
                   (pre ++ JObj bad :: rest') = Some (JObj bad)).
  { apply first_invalid_Some. now exists pre, rest'. }
  now rewrite Hfi'.
Qed.

Lemma C3_missing_key_aborts_witness :
  fails_with (run (sample_env (Some (JArr [JObj sample_record])))
                  (mkArgs "in.json" 2 "a,z" false)) MSG_KEYS /\
  no_output (run_io (run (sample_env (Some (JArr [JObj sample_record])))
                         (mkArgs "in.json" 2 "a,z" false))) = true /\
  exists pre bad rest,
    [JObj sample_record] = pre ++ JObj bad :: rest /\
    Forall (fun v => valid (parse_keys "a,z") v = true) pre /\
    has_all (parse_keys "a,z") bad = false /\
    forall rest' s,
      extract_keys (pre ++ JObj bad :: rest') (parse_keys "a,z") s
      = die MSG_KEYS s.
Proof.
  apply (C3_missing_key_aborts
           (sample_env (Some (JArr [JObj sample_record])))
           (mkArgs "in.json" 2 "a,z" false) [JObj sample_record]).
  - reflexivity.
  - reflexivity.
  - reflexivity.
  - repeat constructor.
  - exists sample_record, "z". simpl. auto.
Defined.

(** C6: a missing input file, a file that does not parse as JSON and a
    parsed value that is not a list all end the run the same way: the one
    line "JSON FILE NOT FOUND!", status 1, no output file; the first two
    are reported by the loader itself, the third by [main]. *)
Theorem C6_loader_failures (e : env) (a : args) :
  Z.of_nat (length (parse_keys (args_k a))) = args_n a ->
  os_path_isfile e (input_path e a) = false \/
  json_load e (input_path e a) = None \/
  (exists v, json_load e (input_path e a) = Some v /\ is_list v = false) ->
  fails_with (run e a) MSG_FILE /\
  no_output (run_io (run e a)) = true /\
  (os_path_isfile e (input_path e a) = false \/
   json_load e (input_path e a) = None ->
   forall s, exists s',
     load_json_file e (args_f a) s = (Exit 1%Z, s') /\
     stdout s' = stdout s ++ [MSG_FILE]).
Proof.
  intros Hn Hcase. rewrite run_eq. cbv zeta. rewrite (count_ok _ Hn).
  split; [| split].
  - destruct (os_path_isfile e (input_path e a)); simpl;
      [| split; reflexivity].
    destruct Hcase as [H | [H | (v & H & Hv)]]; [discriminate | |];
      rewrite H; [split; reflexivity |].
    destruct v; try discriminate; split; reflexivity.
  - destruct (os_path_isfile e (input_path e a)); simpl; [| reflexivity].
    destruct Hcase as [H | [H | (v & H & Hv)]]; [discriminate | |];
      rewrite H; [reflexivity |].
    destruct v; try discriminate; reflexivity.
  - intros Hload s. unfold load_json_file, bind, input_path in *. simpl.
    destruct (os_path_isfile e _); simpl; [| eexists; split; reflexivity].
    destruct Hload as [H | H]; [discriminate |].
    rewrite H. simpl. eexists; split; reflexivity.
Qed.

Lemma C6_loader_failures_witness :
  fails_with (run empty_env (mkArgs "in.json" 1 "a" false)) MSG_FILE /\
  no_output (run_io (run empty_env (mkArgs "in.json" 1 "a" false))) = true /\
  (os_path_isfile empty_env "/opt/tool/in.json" = false \/
   json_load empty_env "/opt/tool/in.json" = None ->
   forall s, exists s',
     load_json_file empty_env "in.json" s = (Exit 1%Z, s') /\
     stdout s' = stdout s ++ [MSG_FILE]).
Proof.
  apply (C6_loader_failures empty_env (mkArgs "in.json" 1 "a" false)).
  - reflexivity.
  - left. reflexivity.
Defined.

(** C8: with the input file holding [{"a":1,"b":2,"c":3}], -n 2, -k "a,c"
    and no -c, the run succeeds and hands [{"a":1,"c":3}] to the JSON
    writer for [json_output.json]. *)
Theorem C8_scenario_a_c (e : env) (f : string) :
  os_path_isfile e (os_path_join (script_dir e) f) = true ->
  json_load e (os_path_join (script_dir e) f) =
    Some (JArr [JObj [("a", JInt 1); ("b", JInt 2); ("c", JInt 3)]]) ->
  write_exn e "json_output.json" = None ->
  run e (mkArgs f 2 "a,c" false) =
  mkRun ["JSON output written to json_output.json"] 0
        [EvIsFile (os_path_join (script_dir e) f);
         EvOpenRead (os_path_join (script_dir e) f);
         EvOpenWrite "json_output.json";
         EvJsonDump "json_output.json"
                    [JObj [("a", JInt 1); ("c", JInt 3)]] 4].
Proof.
  intros Hfile Hload Hwrite. rewrite run_eq. cbv zeta.
  unfold input_path. simpl args_f. simpl args_k. simpl args_n.
  rewrite Hfile, Hload.
  change (output_path (mkArgs f 2 "a,c" false)) with "json_output.json".
  rewrite Hwrite. reflexivity.
Qed.

Lemma C8_scenario_a_c_witness :
  run (sample_env (Some (JArr [JObj sample_record])))
      (mkArgs "in.json" 2 "a,c" false) =
  mkRun ["JSON output written to json_output.json"] 0
        [EvIsFile "/opt/tool/in.json"; EvOpenRead "/opt/tool/in.json";
         EvOpenWrite "json_output.json";
         EvJsonDump "json_output.json"
                    [JObj [("a", JInt 1); ("c", JInt 3)]] 4].
Proof.
  apply (C8_scenario_a_c
           (sample_env (Some (JArr [JObj sample_record]))) "in.json");
    reflexivity.
Defined.

(** C10: with -n 0 and a -k string without any token that is non-empty
    after trimming, the KeySpec is empty and the count check passes; on a
    list of objects, whatever keys they hold, the run succeeds and writes
    one empty object per element. *)
Theorem C10_empty_keyspec (e : env) (a : args) (items : list json) :
  args_n a = 0%Z ->
  (forall t, In t (PyStr.split "," (args_k a)) ->
             PyStr.strip t = EmptyString) ->
  os_path_isfile e (input_path e a) = true ->
  json_load e (input_path e a) = Some (JArr items) ->
  Forall (fun v => is_dict v = true) items ->
  write_exn e (output_path a) = None ->
  parse_keys (args_k a) = [] /\
  run e a =
  mkRun [output_done a] 0
        [EvIsFile (input_path e a); EvOpenRead (input_path e a);
         EvOpenWrite (output_path a);
         output_event a [] (map (fun _ => JObj []) items)].
Proof.
  intros Hn Htok Hfile Hload Hobj Hwrite.
  assert (Hkeys : parse_keys (args_k a) = []).
  { unfold parse_keys.
    induction (PyStr.split "," (args_k a)) as [|t ts IH]; simpl.
    - reflexivity.
    - rewrite (Htok t) by now left. simpl.
      apply IH. intros t' Ht'. apply Htok. now right. }
  split; [assumption |].
  rewrite run_eq. cbv zeta. rewrite Hkeys, Hn, Hfile, Hload. simpl.
  assert (Hvalid : Forall (fun v => valid [] v = true) items).
  { eapply Forall_impl; [| exact Hobj].
    intros v Hv. destruct v; try discriminate. reflexivity. }
  pose proof Hvalid as Hfi. apply first_invalid_None in Hfi.
  rewrite Hfi, Hwrite.
  assert (Hmap : map (project_json []) items = map (fun _ => JObj []) items).
  { apply map_ext_in. intros v Hv. rewrite Forall_forall in Hobj.
    specialize (Hobj _ Hv). destruct v; try discriminate. reflexivity. }
  now rewrite Hmap.
Qed.

Lemma C10_empty_keyspec_witness :
  parse_keys " , ," = [] /\
  run (sample_env (Some (JArr [JObj sample_record; JObj []])))
      (mkArgs "in.json" 0 " , ," true) =
  mkRun ["CSV output written to json_output.csv"] 0
        [EvIsFile "/opt/tool/in.json"; EvOpenRead "/opt/tool/in.json";
         EvOpenWrite "json_output.csv";
         EvCsvWrite "json_output.csv" [] [JObj []; JObj []]].
Proof.
  apply (C10_empty_keyspec
           (sample_env (Some (JArr [JObj sample_record; JObj []])))
           (mkArgs "in.json" 0 " , ," true)
           [JObj sample_record; JObj []]).
  - reflexivity.
  - simpl. intros t [<- | [<- | [<- | []]]]; reflexivity.
  - reflexivity.
  - reflexivity.
  - repeat constructor.
  - reflexivity.
Defined.

(** * Further properties of the code *)

(** ** The key list of [main] *)

Section KeyListFacts.

Lemma split_nonempty (sep : ascii) (s : string) : PyStr.split sep s <> [].
Proof.
  destruct s as [|c s]; simpl; [discriminate |].
  destruct (Ascii.eqb c sep); [discriminate |].
  destruct (PyStr.split sep s); discriminate.
Qed.

Lemma split_app (sep : ascii) (x y : string) :
  PyStr.split sep (x ++ String sep y) = PyStr.split sep x ++ PyStr.split sep y.
Proof.
  induction x as [|c x IH]; simpl.
  - now rewrite Ascii.eqb_refl.
  - rewrite IH. destruct (Ascii.eqb c sep); [reflexivity |].
    pose proof (split_nonempty sep x) as Hne.
    destruct (PyStr.split sep x); [contradiction | reflexivity].
Qed.

Lemma split_lacks (sep : ascii) (s : string) :
  lacks sep s = true -> PyStr.split sep s = [s].
Proof.
  induction s as [|c s IH]; simpl; [reflexivity |].
  intros H. apply andb_prop in H as [Hc Hs].
  apply negb_true_iff in Hc. rewrite Hc, (IH Hs). reflexivity.
Qed.

Lemma split_tokens_lack (sep : ascii) (s : string) :
  Forall (fun t => lacks sep t = true) (PyStr.split sep s).
Proof.
  induction s as [|c s IH]; simpl.
  - repeat constructor.
  - destruct (Ascii.eqb c sep) eqn:E; [now constructor |].
    destruct (PyStr.split sep s) as [|t ts]; [repeat constructor; simpl; now rewrite E |].
    inversion IH; subst. constructor; [| assumption].
    simpl. rewrite E. assumption.
Qed.

Lemma lstrip_lacks (sep : ascii) (s : string) :
  lacks sep s = true -> lacks sep (PyStr.lstrip s) = true.
Proof.
  induction s as [|c s IH]; simpl; [reflexivity |].
  intros H. destruct (PyStr.isspace c); [| exact H].
  apply andb_prop in H as [_ Hs]. now apply IH.
Qed.

Lemma rstrip_lacks (sep : ascii) (s : string) :
  lacks sep s = true -> lacks sep (PyStr.rstrip s) = true.
Proof.
  induction s as [|c s IH]; simpl; [reflexivity |].
  intros H. apply andb_prop in H as [Hc Hs].
  destruct (PyStr.isspace c && negb (PyStr.truthy (PyStr.rstrip s)));
    [reflexivity |].
  simpl. now rewrite Hc, IH.
Qed.

Lemma rstrip_idem (s : string) : PyStr.rstrip (PyStr.rstrip s) = PyStr.rstrip s.
Proof.
  induction s as [|c s IH]; simpl; [reflexivity |].
  destruct (PyStr.isspace c && negb (PyStr.truthy (PyStr.rstrip s))) eqn:E;
    [reflexivity |].
  simpl. now rewrite IH, E.
Qed.

Lemma lstrip_solid (s : string) : starts_solid (PyStr.lstrip s).
Proof.
  induction s as [|c s IH]; simpl; [exact I |].
  destruct (PyStr.isspace c) eqn:E; [exact IH | exact E].
Qed.

Lemma rstrip_solid (s : string) :
  starts_solid s -> starts_solid (PyStr.rstrip s).
Proof.
  destruct s as [|c s]; simpl; [trivial |].
  intros H. rewrite H. simpl. exact H.
Qed.

Lemma lstrip_of_solid (s : string) : starts_solid s -> PyStr.lstrip s = s.
Proof. destruct s as [|c s]; simpl; [trivial | intros ->; reflexivity]. Qed.

Lemma strip_idem (s : string) : PyStr.strip (PyStr.strip s) = PyStr.strip s.
Proof.
  unfold PyStr.strip.
  rewrite (lstrip_of_solid (PyStr.rstrip (PyStr.lstrip s))).
  - apply rstrip_idem.
  - apply rstrip_solid, lstrip_solid.
Qed.

Lemma strip_nonempty_app (xs ys : list string) :
  strip_nonempty (xs ++ ys) = strip_nonempty xs ++ strip_nonempty ys.
Proof.
  induction xs as [|x xs IH]; simpl; [reflexivity |].
  destruct (PyStr.truthy (PyStr.strip x)); simpl; now rewrite IH.
Qed.

Lemma strip_nonempty_In (toks : list string) (key : string) :
  In key (strip_nonempty toks) <->
  exists t, In t toks /\ key = PyStr.strip t /\ PyStr.truthy key = true.
Proof.
  induction toks as [|t toks IH]; simpl.
  - split; [tauto | intros (t & [] & _)].
  - destruct (PyStr.truthy (PyStr.strip t)) eqn:E; simpl; rewrite IH; split.
    + intros [<- | (t' & Ht' & H)]; [exists t; auto | exists t'; tauto].
    + intros (t' & [<- | Ht'] & -> & H); [now left | right; now exists t'].
    + intros (t' & Ht' & H). exists t'; tauto.
    + intros (t' & [<- | Ht'] & -> & H); [congruence | now exists t'].
Qed.

Lemma clean_key_inv (key : string) :
  clean_key key = true <->
  PyStr.truthy key = true /\ PyStr.strip key = key /\ lacks "," key = true.
Proof.
  unfold clean_key. rewrite !andb_true_iff, String.eqb_eq. tauto.
Qed.

End KeyListFacts.

(** ** The key list against the words "split, trim, drop" *)

Section KeySpecFacts.

Lemma concat_cons (sep : string) (c : ascii) (t : string) (ts : list string) :
  String.concat sep (String c t :: ts) = String c (String.concat sep (t :: ts)).
Proof. destruct ts; reflexivity. Qed.

(** Joining the tokens of a split with the separator gives the string
    back. *)
Lemma concat_split (sep : ascii) (s : string) :
  String.concat (String sep EmptyString) (PyStr.split sep s) = s.
Proof.
  induction s as [|c s IH]; simpl; [reflexivity |].
  destruct (Ascii.eqb_spec c sep) as [-> | Hne].
  - pose proof (split_nonempty sep s) as Hs.
    destruct (PyStr.split sep s) as [|t ts]; [contradiction |].
    change (String.concat (String sep "") ("" :: t :: ts))
      with (String sep (String.concat (String sep "") (t :: ts))).
    now rewrite IH.
  - pose proof (split_nonempty sep s) as Hs.
    destruct (PyStr.split sep s) as [|t ts]; [contradiction |].
    now rewrite concat_cons, IH.
Qed.

(** A non-empty list of separator-free tokens is the split of its join. *)
Lemma split_concat (sep : ascii) (toks : list string) :
  Forall (fun t => lacks sep t = true) toks -> toks <> [] ->
  PyStr.split sep (String.concat (String sep EmptyString) toks) = toks.
Proof.
  induction 1 as [|t toks Ht Hall IH]; intros Hne; [contradiction |].
  destruct toks as [|t' toks].
  - simpl. now apply split_lacks.
  - change (String.concat (String sep "") (t :: t' :: toks))
      with (t ++ String sep (String.concat (String sep "") (t' :: toks)))%string.
    rewrite split_app, (split_lacks _ _ Ht), IH by discriminate.
    reflexivity.
Qed.

Lemma lstrip_split (s : string) :
  exists l, s = (l ++ PyStr.lstrip s)%string /\ all_space l = true.
Proof.
  induction s as [|c s (l & Hl & Hsp)]; simpl.
  - now exists EmptyString.
  - destruct (PyStr.isspace c) eqn:E.
    + exists (String c l). simpl. rewrite E, Hsp. now rewrite <- Hl.
    + now exists EmptyString.
Qed.

Lemma rstrip_split (s : string) :
  exists r, s = (PyStr.rstrip s ++ r)%string /\ all_space r = true.
Proof.
  induction s as [|c s (r & Hr & Hsp)]; simpl.
  - now exists EmptyString.
  - destruct (PyStr.isspace c && negb (PyStr.truthy (PyStr.rstrip s))) eqn:E.
    + apply andb_prop in E as [Hc Hempty].
      destruct (PyStr.rstrip s); [| discriminate]. simpl in Hr. subst r.
      exists (String c s). simpl. now rewrite Hc, Hsp.
    + exists r. simpl. now rewrite <- Hr.
Qed.

Lemma rstrip_ends_solid (s : string) : ends_solid (PyStr.rstrip s).
Proof.
  induction s as [|c s IH]; simpl; [exact I |].
  destruct (PyStr.rstrip s) as [|c' r] eqn:E; simpl.
  - rewrite andb_true_r. destruct (PyStr.isspace c) eqn:Hc; simpl; auto.
  - rewrite andb_false_r. exact IH.
Qed.

(** What [strip] returns is the string trimmed. *)
Lemma strip_trimmed (t : string) : trimmed t (PyStr.strip t).
Proof.
  unfold PyStr.strip.
  destruct (lstrip_split t) as (l & Hl & Hls).
  destruct (rstrip_split (PyStr.lstrip t)) as (r & Hr & Hrs).
  exists l, r. repeat split; try assumption.
  - now rewrite <- Hr.
  - apply rstrip_solid, lstrip_solid.
  - apply rstrip_ends_solid.
Qed.

Lemma lstrip_space_app (l s : string) :
  all_space l = true -> PyStr.lstrip (l ++ s) = PyStr.lstrip s.
Proof.
  induction l as [|c l IH]; simpl; [reflexivity |].
  intros H. apply andb_prop in H as [Hc Hl]. rewrite Hc. now apply IH.
Qed.

Lemma rstrip_space (r : string) :
  all_space r = true -> PyStr.rstrip r = EmptyString.
Proof.
  induction r as [|c r IH]; simpl; [reflexivity |].
  intros H. apply andb_prop in H as [Hc Hr]. now rewrite (IH Hr), Hc.
Qed.

Lemma rstrip_solid_app (u r : string) :
  ends_solid u -> all_space r = true -> PyStr.rstrip (u ++ r) = u.
Proof.
  intros Hu Hr. induction u as [|c u IH]; simpl.
  - now apply rstrip_space.
  - destruct u as [|c' u].
    + simpl in *. now rewrite (rstrip_space _ Hr), Hu.
    + rewrite (IH Hu). simpl. now rewrite andb_false_r.
Qed.

Lemma lstrip_space (r : string) :
  all_space r = true -> PyStr.lstrip r = EmptyString.
Proof.
  induction r as [|c r IH]; simpl; [reflexivity |].
  intros H. apply andb_prop in H as [Hc Hr]. rewrite Hc. now apply IH.
Qed.

(** Trimming has one result, the one [strip] returns. *)
Lemma trimmed_strip (t u : string) : trimmed t u -> u = PyStr.strip t.
Proof.
  intros (l & r & -> & Hl & Hr & Hs & He).
  unfold PyStr.strip. rewrite (lstrip_space_app _ _ Hl).
  destruct u as [|c u].
  - simpl. now rewrite (lstrip_space _ Hr).
  - rewrite (lstrip_of_solid (String c u ++ r)) by exact Hs.
    symmetry. now apply rstrip_solid_app.
Qed.

Lemma truthy_nonempty (u : string) :
  PyStr.truthy u = true <-> u <> EmptyString.
Proof. destruct u; simpl; split; congruence. Qed.

Lemma keyspec_of_strip_nonempty (toks : list string) :
  keyspec_of toks (strip_nonempty toks).
Proof.
  induction toks as [|t toks IH]; simpl; [constructor |].
  pose proof (strip_trimmed t) as Ht.
  destruct (PyStr.truthy (PyStr.strip t)) eqn:E.
  - apply KeyspecKeep; [assumption | now apply truthy_nonempty | assumption].
  - apply KeyspecDrop; [| assumption].
    destruct (PyStr.strip t); [assumption | discriminate].
Qed.

Lemma keyspec_of_unique (toks ks : list string) :
  keyspec_of toks ks -> ks = strip_nonempty toks.
Proof.
  induction 1 as [| t toks ks Ht _ IH | t u toks ks Ht Hu _ IH]; simpl.
  - reflexivity.
  - apply trimmed_strip in Ht. rewrite <- Ht. exact IH.
  - apply trimmed_strip in Ht. rewrite <- Ht.
    apply truthy_nonempty in Hu. rewrite Hu. now rewrite IH.
Qed.

(** The key list of [main] is the one list that fits the words: the -k
    string cut at its commas into tokens, each token trimmed, the empty
    results dropped. *)
Lemma parse_keys_iff (k : string) (ks : list string) :
  parse_keys k = ks <->
  exists toks,
    String.concat "," toks = k /\
    Forall (fun t => lacks "," t = true) toks /\
    keyspec_of toks ks.
Proof.
  unfold parse_keys. split.
  - intros <-. exists (PyStr.split "," k). split; [| split].
    + apply concat_split.
    + apply split_tokens_lack.
    + apply keyspec_of_strip_nonempty.
  - intros (toks & <- & Hlacks & Hks).
    apply keyspec_of_unique in Hks. subst ks.
    destruct toks as [|t toks]; [reflexivity |].
    now rewrite split_concat.
Qed.

End KeySpecFacts.

(** C2: the key list of [main] is the -k string split on commas, every
    token trimmed, the empty ones dropped; the run fails with the count
    diagnostic and status 1 exactly when the length of that list differs
    from -n, and the diagnostic is printed in no other run.  The last part
    says what splitting and trimming are without the code's functions: the
    tokens contain no comma and joined by commas give the -k string back,
    a trimmed token is the token between two runs of whitespace with
    whitespace at neither end, and the key list is the only list so
    obtained. *)
Theorem C2_key_count_check (e : env) (a : args) :
  parse_keys (args_k a) = spec_KeySpec (args_k a) /\
  (fails_with (run e a) MSG_COUNT <->
   Z.of_nat (length (spec_KeySpec (args_k a))) <> args_n a) /\
  (In MSG_COUNT (run_stdout (run e a)) <->
   Z.of_nat (length (spec_KeySpec (args_k a))) <> args_n a) /\
  (forall ks,
     parse_keys (args_k a) = ks <->
     exists toks,
       String.concat "," toks = args_k a /\
       Forall (fun t => lacks "," t = true) toks /\
       keyspec_of toks ks).
Proof.
  split; [apply parse_keys_spec |].
  rewrite <- parse_keys_spec.
  assert (Hbad : Z.of_nat (length (parse_keys (args_k a))) <> args_n a ->
                 run e a = mkRun [MSG_COUNT] 1 []).
  { intros H. rewrite run_eq. cbv zeta. now rewrite (count_bad _ H). }
  split; [split | split; [split |]].
  - intros [Hout _] Heq.
    apply (run_no_count_msg e a Heq). rewrite Hout. now left.
  - intros H. rewrite (Hbad H). split; reflexivity.
  - intros Hin Heq. exact (run_no_count_msg e a Heq Hin).
  - intros H. rewrite (Hbad H). now left.
  - intros ks. apply parse_keys_iff.
Qed.

(** X1: every key [main] derives from -k is non-empty, carries no
    whitespace at either end and contains no comma. *)
Theorem parse_keys_are_clean (k key : string) :
  In key (parse_keys k) -> clean_key key = true.
Proof.
  unfold parse_keys. intros H.
  apply strip_nonempty_In in H as (t & Ht & -> & Htruthy).
  apply clean_key_inv. split; [assumption | split].
  - apply strip_idem.
  - pose proof (split_tokens_lack "," k) as Hall.
    rewrite Forall_forall in Hall.
    unfold PyStr.strip. now apply rstrip_lacks, lstrip_lacks, Hall.
Qed.

Lemma parse_keys_are_clean_witness : clean_key "b c" = true.
Proof.
  apply (parse_keys_are_clean " a ,, b c " "b c").
  simpl. right. left. reflexivity.
Defined.

(** X2: the key list of two -k strings joined by a comma is the key list
    of the first followed by the key list of the second. *)
Theorem parse_keys_comma (k1 k2 : string) :
  parse_keys (k1 ++ String "," k2) = parse_keys k1 ++ parse_keys k2.
Proof.
  unfold parse_keys. now rewrite split_app, strip_nonempty_app.
Qed.

(** X3: every list of clean keys can be requested: joining the keys with
    commas and handing the result to -k gives the list back, in order and
    with its repetitions. *)
Theorem parse_keys_concat (keys : list string) :
  Forall (fun key => clean_key key = true) keys ->
  parse_keys (String.concat "," keys) = keys.
Proof.
  intros Hall.
  assert (Hone : forall key, clean_key key = true -> parse_keys key = [key]).
  { intros key Hk. apply clean_key_inv in Hk as (Ht & Hs & Hc).
    unfold parse_keys. rewrite (split_lacks _ _ Hc). simpl.
    now rewrite Hs, Ht. }
  induction Hall as [|key keys Hk Hall IH]; [reflexivity |].
  destruct keys as [|key' keys].
  - simpl. now apply Hone.
  - change (String.concat "," (key :: key' :: keys))
      with (key ++ String "," (String.concat "," (key' :: keys)))%string.
    unfold parse_keys. rewrite split_app, strip_nonempty_app.
    fold (parse_keys key).
    fold (parse_keys (String.concat "," (key' :: keys))).
    now rewrite IH, (Hone _ Hk).
Qed.

Lemma parse_keys_concat_witness :
  parse_keys (String.concat "," ["id"; "first name"; "id"])
  = ["id"; "first name"; "id"].
Proof.
  apply (parse_keys_concat ["id"; "first name"; "id"]).
  repeat constructor.
Defined.

(** ** The projection on its own *)

Section ProjectionMore.

Implicit Types (d : PyDict.dict json) (keys : list string) (s : state).

Lemma first_invalid_app keys (xs ys : list json) :
  first_invalid keys (xs ++ ys) =
  match first_invalid keys xs with
  | Some bad => Some bad
  | None => first_invalid keys ys
  end.
Proof.
  unfold first_invalid. induction xs as [|x xs IH]; simpl; [reflexivity |].
  destruct (negb (valid keys x)); [reflexivity | exact IH].
Qed.

Lemma die_msg_inj {A} (m1 m2 : string) s : @die A m1 s = die m2 s -> m1 = m2.
Proof.
  unfold die. intros [= H]. apply app_inv_head in H. congruence.
Qed.

(** The comprehension reads the object only under the requested keys. *)
Lemma project_into_ext keys d1 d2 (acc : PyDict.dict json) :
  (forall k, In k keys -> PyDict.getitem k d1 = PyDict.getitem k d2) ->
  project_into d1 keys acc = project_into d2 keys acc.
Proof.
  revert acc. induction keys as [|k keys IH]; intros acc H; simpl.
  - reflexivity.
  - rewrite <- (H k) by now left.
    destruct (PyDict.getitem k d1); apply IH; intros k' Hk'; apply H; now right.
Qed.

Lemma has_all_ext keys d1 d2 :
  (forall k, In k keys -> PyDict.getitem k d1 = PyDict.getitem k d2) ->
  has_all keys d1 = has_all keys d2.
Proof.
  unfold has_all. induction keys as [|k keys IH]; intros H; simpl;
    [reflexivity |].
  rewrite IH by (intros k' Hk'; apply H; now right). f_equal.
  specialize (H k (or_introl eq_refl)).
  destruct (PyDict.contains k d1) eqn:E1, (PyDict.contains k d2) eqn:E2;
    try reflexivity.
  - apply contains_getitem in E1. rewrite H in E1.
    apply contains_getitem in E1. congruence.
  - apply contains_getitem in E2. rewrite <- H in E2.
    apply contains_getitem in E2. congruence.
Qed.

End ProjectionMore.

(** X4: the projection never ends in an uncaught exception (the lookups
    [item[key]] of the comprehension cannot raise): it returns, leaving
    the output and the trace of file system calls as they were, or it
    prints one of its two diagnostics and leaves with status 1. *)
Theorem extract_keys_outcomes
    (items : list json) (keys : list string) (s : state) :
  (exists subset, extract_keys items keys s = (Ret subset, s) /\
                  length subset = length items) \/
  extract_keys items keys s = die MSG_KEYS s \/
  extract_keys items keys s = die MSG_FILE s.
Proof.
  rewrite extract_keys_eq.
  destruct (first_invalid keys items) as [bad |].
  - right. unfold reject_msg. destruct (is_dict bad); auto.
  - left. eexists. split; [reflexivity | apply length_map].
Qed.

(** X5: which diagnostic the projection prints is decided by the first
    element it rejects: "JSON FILE NOT FOUND!" exactly when that element
    is not an object, the key diagnostic exactly when it is an object
    lacking a key; elements after it do not count. *)
Theorem extract_keys_diagnostic
    (items : list json) (keys : list string) (s : state) :
  (extract_keys items keys s = die MSG_FILE s <->
   exists pre bad rest,
     items = pre ++ bad :: rest /\
     Forall (fun v => valid keys v = true) pre /\ is_dict bad = false) /\
  (extract_keys items keys s = die MSG_KEYS s <->
   exists pre d rest,
     items = pre ++ JObj d :: rest /\
     Forall (fun v => valid keys v = true) pre /\ has_all keys d = false).
Proof.
  rewrite extract_keys_eq. split; split.
  - destruct (first_invalid keys items) as [bad |] eqn:E; [| discriminate].
    intros H. apply die_msg_inj in H.
    apply first_invalid_Some in E as (pre & rest & -> & Hpre & _).
    exists pre, bad, rest. repeat split; try assumption.
    unfold reject_msg in H. destruct (is_dict bad); [discriminate | reflexivity].
  - intros (pre & bad & rest & -> & Hpre & Hbad).
    assert (E : first_invalid keys (pre ++ bad :: rest) = Some bad).
    { apply first_invalid_Some. exists pre, rest. repeat split; auto.
      destruct bad; try reflexivity. discriminate. }
    rewrite E. unfold reject_msg. now rewrite Hbad.
  - destruct (first_invalid keys items) as [bad |] eqn:E; [| discriminate].
    intros H. apply die_msg_inj in H.
    apply first_invalid_Some in E as (pre & rest & -> & Hpre & Hv).
    unfold reject_msg in H.
    destruct bad; try discriminate. now exists pre, d, rest.
  - intros (pre & d & rest & -> & Hpre & Hd).
    assert (E : first_invalid keys (pre ++ JObj d :: rest) = Some (JObj d)).
    { apply first_invalid_Some. now exists pre, rest. }
    now rewrite E.
Qed.

(** X6: projecting a concatenation is projecting the first list, then the
    second, and concatenating the results; a failure in the first list is
    the failure of the whole, and the second list is then not looked
    at. *)
Theorem extract_keys_app
    (xs ys : list json) (keys : list string) (s : state) :
  extract_keys (xs ++ ys) keys s =
  (a <- extract_keys xs keys ;;
   b <- extract_keys ys keys ;;
   ret (a ++ b)) s.
Proof.
  unfold bind. rewrite !extract_keys_eq, first_invalid_app.
  destruct (first_invalid keys xs); [reflexivity |].
  rewrite extract_keys_eq.
  destruct (first_invalid keys ys); [reflexivity |].
  unfold ret. now rewrite map_app.
Qed.

(** X7: projecting the result of a projection onto keys that were all
    kept is the same as projecting the original list onto those keys; with
    the same KeySpec twice, the second projection changes nothing. *)
Theorem extract_keys_narrowing
    (items subset : list json) (keys1 keys2 : list string) (s s' : state) :
  extract_keys items keys1 s = (Ret subset, s') ->
  (forall k, In k keys2 -> In k keys1) ->
  extract_keys subset keys2 s = extract_keys items keys2 s /\
  extract_keys subset keys1 s = (Ret subset, s).
Proof.
  intros Hrun Hincl.
  apply extract_keys_returns in Hrun as (Hall & -> & _).
  assert (Hgen : forall keys, (forall k, In k keys -> In k keys1) ->
            extract_keys (map (project_json keys1) items) keys s =
            (Ret (map (project_json keys) items), s)).
  { intros keys Hk. rewrite extract_keys_all_valid.
    - f_equal. f_equal. rewrite map_map. apply map_ext_in.
      intros v Hv. rewrite Forall_forall in Hall.
      destruct (valid_inv _ _ (Hall _ Hv)) as (d & -> & Hd). simpl. f_equal.
      apply project_into_ext. intros k Hin.
      rewrite getitem_project_into by assumption.
      apply Hk, mem_In in Hin. now rewrite Hin.
    - apply Forall_map. eapply Forall_impl; [| exact Hall].
      intros v Hv. destruct (valid_inv _ _ Hv) as (d & -> & Hd). simpl.
      apply has_all_In. intros k Hin. apply contains_getitem.
      rewrite getitem_project_into by assumption.
      pose proof (Hk _ Hin) as Hin1. apply mem_In in Hin1. rewrite Hin1.
      apply contains_getitem.
      rewrite has_all_In in Hd. now apply Hd, Hk. }
  split.
  - rewrite (Hgen keys2 Hincl). symmetry. apply extract_keys_all_valid.
    eapply Forall_impl; [| exact Hall].
    intros v Hv. destruct (valid_inv _ _ Hv) as (d & -> & Hd). simpl.
    apply has_all_In. intros k Hin.
    rewrite has_all_In in Hd. now apply Hd, Hincl.
  - apply Hgen. auto.
Qed.

Lemma extract_keys_narrowing_witness :
  extract_keys [JObj [("c", JInt 3); ("a", JInt 1)]] ["a"] init =
  extract_keys [JObj sample_record] ["a"] init /\
  extract_keys [JObj [("c", JInt 3); ("a", JInt 1)]] ["c"; "a"] init =
  (Ret [JObj [("c", JInt 3); ("a", JInt 1)]], init).
Proof.
  apply (extract_keys_narrowing
           [JObj sample_record] [JObj [("c", JInt 3); ("a", JInt 1)]]
           ["c"; "a"] ["a"] init init).
  - reflexivity.
  - intros k [<- | []]. simpl. auto.
Defined.

(** X8: the projection reads an object only under the KeySpec keys: two
    lists whose elements are, position by position, objects with the same
    values under those keys give the same outcome, whatever the order of
    their entries and whatever other keys they hold. *)
Theorem extract_keys_reads_only_keys
    (items1 items2 : list json) (keys : list string) (s : state) :
  Forall2 (agree_on keys) items1 items2 ->
  extract_keys items1 keys s = extract_keys items2 keys s.
Proof.
  unfold extract_keys. generalize (@nil json) as subset.
  intros subset H. revert subset.
  induction H as [|v1 v2 l1 l2 (d1 & d2 & -> & -> & Hd) _ IH];
    intros subset; simpl; [reflexivity |].
  unfold bind. rewrite !check_keys_eq, (has_all_ext _ _ _ Hd).
  destruct (has_all keys d2) eqn:Hall; [| reflexivity].
  rewrite (comprehension_eq _ d2 _ _ Hall).
  rewrite <- (has_all_ext _ _ _ Hd) in Hall.
  rewrite (comprehension_eq _ d1 _ _ Hall).
  rewrite (project_into_ext _ _ _ _ Hd). apply IH.
Qed.

Lemma extract_keys_reads_only_keys_witness :
  extract_keys [JObj sample_record] ["c"; "a"] init =
  extract_keys [JObj [("z", JNull); ("c", JInt 3); ("a", JInt 1)]]
               ["c"; "a"] init.
Proof.
  apply (extract_keys_reads_only_keys
           [JObj sample_record]
           [JObj [("z", JNull); ("c", JInt 3); ("a", JInt 1)]]
           ["c"; "a"] init).
  repeat constructor.
  exists sample_record, [("z", JNull); ("c", JInt 3); ("a", JInt 1)].
  repeat split. intros k [<- | [<- | []]]; reflexivity.
Defined.

(** ** The loader and the run as a whole *)

Section RunCases.

(** Every run is one of the seven of [run_spec]. *)
Lemma run_run_spec (e : env) (a : args) : run_spec e a (run e a).
Proof.
  rewrite run_eq. cbv zeta.
  destruct (Z.eqb_spec (Z.of_nat (length (parse_keys (args_k a))))
                       (args_n a)) as [Hn | Hn]; simpl;
    [| now apply RunCount].
  destruct (os_path_isfile e (input_path e a)) eqn:Hfile; simpl;
    [| now apply RunNoFile].
  destruct (json_load e (input_path e a)) as [v |] eqn:Hload;
    [| now apply RunNoParse].
  destruct v; try (now eapply RunNotList; eauto).
  destruct (first_invalid (parse_keys (args_k a)) items) as [bad |] eqn:Hfi;
    [now eapply RunReject; eauto |].
  destruct (write_exn e (output_path a)) as [exn |] eqn:Hw.
  - now eapply RunWriteError; eauto.
  - now apply RunDone.
Qed.

Lemma output_done_not_error (a : args) (exn : string) :
  output_error a exn <> output_done a.
Proof.
  unfold output_error, output_done. destruct (args_c a); discriminate.
Qed.

Lemma output_done_not_diagnostic (a : args) :
  output_done a <> MSG_COUNT /\ output_done a <> MSG_FILE /\
  output_done a <> MSG_KEYS.
Proof.
  unfold output_done. destruct (args_c a); repeat split; discriminate.
Qed.

End RunCases.

(** X9: the loader returns a value exactly when the file exists at the
    joined path and loads; it then returns the loaded value, prints
    nothing and has made two calls.  A path that is no file is never
    opened. *)
Theorem load_json_file_returns (e : env) (f : string) (s : state) (v : json) :
  (os_path_isfile e (os_path_join (script_dir e) f) = true /\
   json_load e (os_path_join (script_dir e) f) = Some v <->
   load_json_file e f s =
   (Ret v, mkState (stdout s)
                   (io s ++ [EvIsFile (os_path_join (script_dir e) f);
                             EvOpenRead (os_path_join (script_dir e) f)]))) /\
  (forall s', load_json_file e f s = (Ret v, s') ->
     json_load e (os_path_join (script_dir e) f) = Some v) /\
  (os_path_isfile e (os_path_join (script_dir e) f) = false ->
   load_json_file e f s =
   (Exit 1%Z, mkState (stdout s ++ [MSG_FILE])
                      (io s ++ [EvIsFile (os_path_join (script_dir e) f)]))).
Proof.
  unfold load_json_file, bind, emit, print, sys_exit, ret. simpl.
  destruct (os_path_isfile e _); simpl;
    destruct (json_load e _) as [v' |]; simpl;
    rewrite <- ?app_assoc; simpl;
    repeat split; intros; try congruence;
    match goal with
    | H : _ /\ _ |- _ => destruct H; congruence
    end.
Qed.

(** X10: once [parse_arguments] has returned the namespace [a], the rest
    of [main] ends with status 0 exactly when the key count matches -n,
    the input file exists and loads as a list, every element is an object
    holding every KeySpec key, and writing the output file raises
    nothing. *)
Theorem run_success_iff (e : env) (a : args) :
  run_exit (run e a) = 0%Z <->
  Z.of_nat (length (parse_keys (args_k a))) = args_n a /\
  os_path_isfile e (input_path e a) = true /\
  (exists items,
     json_load e (input_path e a) = Some (JArr items) /\
     Forall (fun v => valid (parse_keys (args_k a)) v = true) items) /\
  write_exn e (output_path a) = None.
Proof.
  split.
  - intros H. destruct (run_run_spec e a); try discriminate.
    repeat split; try assumption.
    exists items. split; [assumption | now apply first_invalid_None].
  - intros (Hn & Hfile & (items & Hload & Hall) & Hw).
    apply first_invalid_None in Hall.
    rewrite run_eq. cbv zeta.
    now rewrite (count_ok _ Hn), Hfile, Hload, Hall, Hw.
Qed.

(** What [run] shows of a call of [main]: one line, and status 0 with the
    confirmation or status 1 with another line. *)
Lemma run_line_status (e : env) (a : args) :
  exists line,
    run_stdout (run e a) = [line] /\
    (run_exit (run e a) = 0%Z /\ line = output_done a \/
     run_exit (run e a) = 1%Z /\ line <> output_done a).
Proof.
  destruct (output_done_not_diagnostic a) as (Hc & Hf & Hk).
  destruct (run_run_spec e a); eexists; (split; [reflexivity |]);
    simpl; auto; right; (split; [reflexivity |]); try congruence.
  - unfold reject_msg. destruct (is_dict bad); congruence.
  - apply output_done_not_error.
Qed.

(** How [main] ends: by returning or through [sys.exit(1)]. *)
Lemma main_ends (e : env) (a : args) :
  exists s', main e a init = (Ret tt, s') \/ main e a init = (Exit 1%Z, s').
Proof.
  unfold main, load_json_file, bind. simpl.
  destruct (Z.of_nat (length (parse_keys (args_k a))) =? args_n a)%Z;
    simpl; [| eexists; right; reflexivity].
  destruct (os_path_isfile e _); simpl; [| eexists; right; reflexivity].
  destruct (json_load e _) as [v |]; simpl; [| eexists; right; reflexivity].
  destruct v; simpl; try (eexists; right; reflexivity).
  rewrite extract_keys_eq.
  destruct (first_invalid _ items); simpl; [eexists; right; reflexivity |].
  destruct (args_c a); unfold output_csv, output_json, bind; simpl;
    destruct (write_exn e _); simpl; eexists;
    ((left; reflexivity) || (right; reflexivity)).
Qed.

(** X11: once [parse_arguments] has returned the namespace [a], the rest
    of [main] prints exactly one line and ends in one of two ways: it
    returns, and the line is the confirmation naming the output file, or it
    leaves through [sys.exit(1)], and the line is another one.  No
    exception escapes it: neither a [KeyError] from [item[key]] nor one of
    the reads and writes the code wraps in [try]. *)
Theorem main_one_line (e : env) (a : args) :
  exists line s',
    stdout s' = [line] /\
    (main e a init = (Ret tt, s') /\ line = output_done a \/
     main e a init = (Exit 1%Z, s') /\ line <> output_done a).
Proof.
  destruct (run_line_status e a) as (line & Hout & Hcases).
  destruct (main_ends e a) as (s' & Hmain).
  exists line, s'.
  assert (Hrun : forall o, main e a init = (o, s') ->
            run_stdout (run e a) = stdout s' /\
            run_exit (run e a) = exit_status o).
  { intros o H. unfold run. rewrite H. split; reflexivity. }
  destruct Hmain as [H | H]; destruct (Hrun _ H) as [Hs Hx];
    simpl in Hx; rewrite Hs in Hout; (split; [assumption |]).
  - left. split; [assumption |].
    destruct Hcases as [[_ Hl] | [H1 _]]; [assumption | congruence].
  - right. split; [assumption |].
    destruct Hcases as [[H0 _] | [_ Hl]]; [congruence | assumption].
Qed.

(** X12: once [parse_arguments] has returned the namespace [a], the
    file system calls of the rest of [main] are an initial part of one
    fixed sequence: test the input path, open it, open the output file of
    the chosen format, write it.  Nothing else is touched, the output file
    is opened only after the whole list has been accepted, and all four
    calls have been made when [main] then ends with status 0. *)
Theorem run_io_prefix (e : env) (a : args) :
  exists n out,
    run_io (run e a) = firstn n (pipeline e a out) /\
    (run_exit (run e a) = 0%Z -> run_io (run e a) = pipeline e a out) /\
    (3 <= n ->
     exists items, json_load e (input_path e a) = Some (JArr items) /\
       Forall (fun v => valid (parse_keys (args_k a)) v = true) items).
Proof.
  destruct (run_run_spec e a).
  - exists 0, []. repeat split; try discriminate. simpl. lia.
  - exists 1, []. repeat split; try discriminate. simpl. lia.
  - exists 2, []. repeat split; try discriminate. simpl. lia.
  - exists 2, []. repeat split; try discriminate. simpl. lia.
  - exists 2, []. repeat split; try discriminate. simpl. lia.
  - exists 3, []. repeat split; try discriminate.
    intros _. exists items. split; [assumption | now apply first_invalid_None].
  - exists 4, (map (project_json (parse_keys (args_k a))) items).
    repeat split.
    intros _. exists items. split; [assumption | now apply first_invalid_None].
Qed.

(** X13: a negative -n can match no key list: the run fails with the
    count diagnostic, whatever -k holds, before any file system call. *)
Theorem run_negative_count (e : env) (a : args) :
  (args_n a < 0)%Z ->
  fails_with (run e a) MSG_COUNT /\ run_io (run e a) = [].
Proof.
  intros Hneg.
  assert (H : Z.of_nat (length (parse_keys (args_k a))) <> args_n a) by lia.
  rewrite run_eq. cbv zeta. rewrite (count_bad _ H). repeat split.
Qed.

Lemma run_negative_count_witness :
  fails_with (run empty_env (mkArgs "in.json" (-1) "" false)) MSG_COUNT /\
  run_io (run empty_env (mkArgs "in.json" (-1) "" false)) = [].
Proof.
  apply (run_negative_count empty_env (mkArgs "in.json" (-1) "" false)).
  simpl. lia.
Defined.

(** X14: an empty input list is accepted with any KeySpec: no key is
    looked up, and the run writes an empty list. *)
Theorem run_empty_list (e : env) (a : args) :
  Z.of_nat (length (parse_keys (args_k a))) = args_n a ->
  os_path_isfile e (input_path e a) = true ->
  json_load e (input_path e a) = Some (JArr []) ->
  write_exn e (output_path a) = None ->
  run e a = mkRun [output_done a] 0 (pipeline e a []).
Proof.
  intros Hn Hfile Hload Hw. rewrite run_eq. cbv zeta.
  now rewrite (count_ok _ Hn), Hfile, Hload, Hw.
Qed.

Lemma run_empty_list_witness :
  run (sample_env (Some (JArr []))) (mkArgs "in.json" 2 "a,z" true) =
  mkRun ["CSV output written to json_output.csv"] 0
        [EvIsFile "/opt/tool/in.json"; EvOpenRead "/opt/tool/in.json";
         EvOpenWrite "json_output.csv";
         EvCsvWrite "json_output.csv" ["a"; "z"] []].
Proof.
  apply (run_empty_list (sample_env (Some (JArr [])))
                        (mkArgs "in.json" 2 "a,z" true));
    reflexivity.
Defined.

(** X15: when the input passes every check and writing the output file
    raises, the run prints the write error of the chosen format followed
    by the text of the exception and leaves with status 1; the output file
    has been opened and the input is not read again. *)
Theorem run_write_error (e : env) (a : args) (items : list json)
    (exn : string) :
  Z.of_nat (length (parse_keys (args_k a))) = args_n a ->
  os_path_isfile e (input_path e a) = true ->
  json_load e (input_path e a) = Some (JArr items) ->
  Forall (fun v => valid (parse_keys (args_k a)) v = true) items ->
  write_exn e (if args_c a then "json_output.csv" else "json_output.json")
  = Some exn ->
  run e a =
  mkRun [((if args_c a then "Error writing CSV file: "
           else "Error writing JSON file: ") ++ exn)%string] 1
        [EvIsFile (input_path e a); EvOpenRead (input_path e a);
         EvOpenWrite (if args_c a then "json_output.csv"
                      else "json_output.json")].
Proof.
  intros Hn Hfile Hload Hall Hw. apply first_invalid_None in Hall.
  rewrite run_eq. cbv zeta.
  rewrite (count_ok _ Hn), Hfile, Hload, Hall.
  unfold output_path, output_error. rewrite Hw.
  destruct (args_c a); reflexivity.
Qed.

Lemma run_write_error_witness :
  run (readonly_env (Some (JArr [JObj sample_record])))
      (mkArgs "in.json" 1 "b" false) =
  mkRun ["Error writing JSON file: Permission denied"] 1
        [EvIsFile "/opt/tool/in.json"; EvOpenRead "/opt/tool/in.json";
         EvOpenWrite "json_output.json"].
Proof.
  apply (run_write_error (readonly_env (Some (JArr [JObj sample_record])))
                         (mkArgs "in.json" 1 "b" false)
                         [JObj sample_record] "Permission denied").
  - reflexivity.
  - reflexivity.
  - reflexivity.
  - repeat constructor.
  - reflexivity.
Defined.

(** X16: whenever a run hands rows to the CSV writer, -c was given, the
    file is [json_output.csv], the column names are the KeySpec as parsed
    (repetitions included), and every row is an object whose keys are
    exactly the column names: no row has a key outside the header, no
    column is left without a value. *)
Theorem csv_rows_match_header (e : env) (a : args)
    (path : string) (fieldnames : list string) (rows : list json) :
  In (EvCsvWrite path fieldnames rows) (run_io (run e a)) ->
  args_c a = true /\ path = "json_output.csv" /\
  fieldnames = parse_keys (args_k a) /\
  forall row, In row rows ->
    exists d, row = JObj d /\
      forall k, In k (PyDict.keys d) <-> In k fieldnames.
Proof.
  intros Hin.
  destruct (run_run_spec e a) as [| | | | | |items Hn Hfile Hload Hfi Hw];
    simpl in Hin;
    try (repeat (destruct Hin as [Hin | Hin]; try discriminate);
         contradiction).
  unfold output_event in Hin.
  destruct (args_c a).
  2: { repeat (destruct Hin as [Hin | Hin]; try discriminate).
       contradiction. }
  repeat (destruct Hin as [Hin | Hin]; try discriminate); [| contradiction].
  injection Hin as <- <- <-.
  repeat split.
  intros row Hrow. apply in_map_iff in Hrow as (v & <- & Hv).
  apply first_invalid_None in Hfi. rewrite Forall_forall in Hfi.
  destruct (valid_inv _ _ (Hfi _ Hv)) as (d & -> & Hd).
  exists (project_into d (parse_keys (args_k a)) []). split; [reflexivity |].
  intros k. rewrite keys_project_into by assumption. simpl.
  apply distinct_In.
Qed.

Lemma csv_rows_match_header_witness :
  true = true /\ "json_output.csv" = "json_output.csv" /\
  ["c"; "a"; "c"] = parse_keys "c,a,c" /\
  forall row, In row [JObj [("c", JInt 3); ("a", JInt 1)]] ->
    exists d, row = JObj d /\
      forall k, In k (PyDict.keys d) <-> In k ["c"; "a"; "c"].
Proof.
  apply (csv_rows_match_header
           (sample_env (Some (JArr [JObj sample_record])))
           (mkArgs "in.json" 3 "c,a,c" true)
           "json_output.csv" ["c"; "a"; "c"]
           [JObj [("c", JInt 3); ("a", JInt 1)]]).
  simpl. right. right. right. left. reflexivity.
Defined.
